(** * Nutrition assistant: the analysis client and the meal ledger of script.js

    A shallow embedding of the core of [script.js]: the retried request of
    [getNutritionalInfo], the meal log [dailyLog] with its goal
    [calorieGoal], the reduce and the progress computation of
    [updateDashboard], and the four event handlers that change the log and
    the goal.

    What the model covers and what it leaves out:
    - JavaScript numbers are the type [number]: NaN, the two infinities and
      the finite values, the finite ones as exact rationals.  The rounding
      of sums, products and quotients to binary64, their overflow and the
      sign of zero are not modelled there; the statements about them are
      those that hold with and without rounding.  [parseInt] rounds its
      integer to binary64.  The module [Binary64] evaluates the arithmetic
      of the progress bar on binary64 numbers themselves.
    - JavaScript strings are lists of UTF-16 code units.
    - Objects read from the remote service are records at the shape of
      [nutritionSchema]; a property that may be missing (or null) is an
      [option].
    - [fetch], [Math.random] and [setTimeout] are the environment: a script
      of fetch outcomes and random draws, and a trace of what was requested
      and slept.  The built-in [JSON.parse] is a parameter.
    - Of the DOM, the elements [handleLogMeal] writes are modelled (the
      record [page]); the rendering of the log and of the dashboard is
      not, and whether it throws is an input. *)

From Stdlib Require Import ZArith QArith Qcanon List Bool Ascii String Lia.
From Stdlib Require Import Lqa.
From Stdlib Require Import PrimFloat FloatOps SpecFloat.
From Stdlib Require Decimal DecimalN.
Import ListNotations.

Local Open Scope Z_scope.

(** ** JavaScript numbers *)

Module Num.

Inductive number : Type :=
| NaN
| NegInf
| Fin (q : Qc)
| PosInf.

Definition of_Z (z : Z) : number := Fin (Q2Qc (inject_Z z)).

Definition zero : number := of_Z 0.

(** The Number value of a mathematical integer: the integer itself up to
    [2^53] in magnitude, beyond that the nearest binary64 number, ties to
    the even significand, and an infinity from [2^1024 - 2^970] on. *)
Definition nearest (z : Z) : number :=
  let a := Z.abs z in
  if a <=? 2 ^ 53 then of_Z z
  else
    let e := Z.log2 a - 52 in
    let q := a / 2 ^ e in
    let r := a mod 2 ^ e in
    let half := 2 ^ (e - 1) in
    let m :=
      if r <? half then q
      else if half <? r then q + 1
      else if Z.even q then q else q + 1 in
    let v := m * 2 ^ e in
    if 2 ^ 1024 <=? v then (if z <? 0 then NegInf else PosInf)
    else of_Z (Z.sgn z * v).

Definition Qc_is_zero (q : Qc) : bool :=
  match (q ?= Q2Qc 0)%Qc with Eq => true | _ => false end.

Definition Qc_ltb (a b : Qc) : bool :=
  match (a ?= b)%Qc with Lt => true | _ => false end.

(** ToBoolean on a number: NaN and zero are falsy. *)
Definition truthy (n : number) : bool :=
  match n with
  | NaN => false
  | Fin q => negb (Qc_is_zero q)
  | NegInf | PosInf => true
  end.

(** [a + b] *)
Definition add (a b : number) : number :=
  match a, b with
  | NaN, _ | _, NaN => NaN
  | PosInf, NegInf | NegInf, PosInf => NaN
  | PosInf, _ | _, PosInf => PosInf
  | NegInf, _ | _, NegInf => NegInf
  | Fin x, Fin y => Fin (x + y)%Qc
  end.

(** The sign of a number that is not NaN: -1, 0 or 1. *)
Definition sign (n : number) : Z :=
  match n with
  | NaN => 0
  | NegInf => -1
  | PosInf => 1
  | Fin q => if Qc_is_zero q then 0 else if Qc_ltb q (Q2Qc 0) then -1 else 1
  end.

Definition signed_inf (s : Z) : number :=
  match s with
  | Z0 => NaN
  | Zpos _ => PosInf
  | Zneg _ => NegInf
  end.

(** [a * b] *)
Definition mul (a b : number) : number :=
  match a, b with
  | NaN, _ | _, NaN => NaN
  | Fin x, Fin y => Fin (x * y)%Qc
  | _, _ => signed_inf (sign a * sign b)
  end.

(** [a / b]; a zero divisor counts as +0. *)
Definition div (a b : number) : number :=
  match a, b with
  | NaN, _ | _, NaN => NaN
  | Fin x, Fin y => if Qc_is_zero y then signed_inf (sign a) else Fin (x / y)%Qc
  | Fin _, _ => zero
  | _, Fin y => signed_inf (sign a * (if Qc_ltb y (Q2Qc 0) then -1 else 1))
  | _, _ => NaN
  end.

(** [a > b]: false as soon as one side is NaN. *)
Definition gt (a b : number) : bool :=
  match a, b with
  | NaN, _ | _, NaN => false
  | NegInf, _ => false
  | _, PosInf => false
  | PosInf, _ => true
  | _, NegInf => true
  | Fin x, Fin y => Qc_ltb y x
  end.

(** [Math.min(a, b)] *)
Definition min (a b : number) : number :=
  match a, b with
  | NaN, _ | _, NaN => NaN
  | _, _ => if gt a b then b else a
  end.

(** [Math.pow(2, n)] for a natural exponent. *)
Definition pow2 (n : nat) : number := of_Z (2 ^ Z.of_nat n).

(** [v || d] where [v] is a number or undefined. *)
Definition or_else (v : option number) (d : number) : number :=
  match v with
  | Some n => if truthy n then n else d
  | None => d
  end.

Definition is_NaN (n : number) : bool :=
  match n with NaN => true | _ => false end.


End Num.

Import Num.

(** ** JavaScript strings *)

Module Str.

(** A string is its sequence of UTF-16 code units. *)
Definition jsstring : Type := list N.

(** A string literal of the source, written with ASCII characters. *)
Definition lit (s : string) : jsstring :=
  map N_of_ascii (list_ascii_of_string s).

(** The WhiteSpace and LineTerminator code points of ECMAScript, which
    [String.prototype.trim] strips and [parseInt] skips. *)
Definition is_whitespace (c : N) : bool :=
  ((9 <=? c) && (c <=? 13) || (c =? 32) || (c =? 160) || (c =? 5760)
   || (8192 <=? c) && (c <=? 8202) || (c =? 8232) || (c =? 8233)
   || (c =? 8239) || (c =? 8287) || (c =? 12288) || (c =? 65279))%N.

Fixpoint trimStart (s : jsstring) : jsstring :=
  match s with
  | c :: rest => if is_whitespace c then trimStart rest else s
  | [] => []
  end.

Definition trimEnd (s : jsstring) : jsstring := rev (trimStart (rev s)).

(** [s.trim()] *)
Definition trim (s : jsstring) : jsstring := trimEnd (trimStart s).

(** ToBoolean on a string: only the empty string is falsy. *)
Definition truthy (s : jsstring) : bool :=
  match s with [] => false | _ :: _ => true end.

Definition is_digit (c : N) : bool := ((48 <=? c) && (c <=? 57))%N.

Definition digit_value (c : N) : Z := Z.of_N (c - 48).

(** The longest prefix of decimal digits. *)
Fixpoint digit_prefix (s : jsstring) : jsstring :=
  match s with
  | c :: rest => if is_digit c then c :: digit_prefix rest else []
  | [] => []
  end.

(** The mathematical integer a sequence of decimal digits denotes. *)
Definition digits_value (ds : jsstring) : Z :=
  fold_left (fun acc c => 10 * acc + digit_value c) ds 0.

(** [parseInt(s, 10)]: skip leading white space, read an optional sign,
    then the longest run of decimal digits; NaN when there is none.  The
    integer read becomes a Number: it is rounded to binary64 (for more than
    20 significant digits ECMAScript lets an implementation round a little
    differently; the correctly rounded value is taken here). *)
Definition parseInt10 (s : jsstring) : number :=
  let s1 := trimStart s in
  let '(sign, s2) :=
    match s1 with
    | c :: rest =>
        if (c =? 45)%N then (-1, rest)
        else if (c =? 43)%N then (1, rest)
        else (1, s1)
    | [] => (1, s1)
    end in
  match digit_prefix s2 with
  | [] => NaN
  | ds => nearest (sign * digits_value ds)
  end.

End Str.

Import Str.

(** ** Results of code that can throw *)

(** The errors the modelled code raises: the three [new Error(...)] of
    [getNutritionalInfo], named after their messages, and the built-in ones. *)
Inductive error : Type :=
| ApiError (statusText : jsstring) (status : Z)
    (* `API Error: ${response.statusText} (Status: ${response.status})` *)
| RequestFailed (attempts : nat)
    (* `API request failed after ${maxAttempts} attempts.` *)
| CouldNotParse
    (* "Could not parse the nutritional data from the AI's response." *)
| NetworkError   (* fetch rejects *)
| SyntaxError    (* response.json() or JSON.parse rejects its input *)
| TypeError.     (* a property of undefined or null is read *)

Inductive result (A : Type) : Type :=
| Returned (a : A)
| Threw (e : error).

Arguments Returned {A} a.
Arguments Threw {A} e.

(** ** The data of nutritionSchema *)

Record summary : Type := {
  total_calories : option number;
  total_protein_g : option number;
  total_carbs_g : option number;
  total_fat_g : option number
}.

(** An element of [food_items]; [calories_of_item] is its [calories], the
    name the accumulator of the dashboard also uses. *)
Record food_item : Type := {
  name : option jsstring;
  quantity : option jsstring;
  calories_of_item : option number;
  protein_g : option number;
  carbs_g : option number;
  fat_g : option number
}.

Record nutrition : Type := {
  meal_summary : option summary;
  food_items : option (list food_item)
}.

(** An entry of [dailyLog]: [{ description, analysis }]. *)
Record meal : Type := {
  description : jsstring;
  analysis : nutrition
}.

(** ** The ledger: the two variables of the STATE block and the dashboard *)

Module Ledger.

Record state : Type := {
  dailyLog : list meal;
  calorieGoal : number
}.

Definition initial : state := {| dailyLog := []; calorieGoal := of_Z 2000 |}.

(** The accumulator of the reduce in [updateDashboard]. *)
Record totals : Type := {
  calories : number;
  protein : number;
  carbs : number;
  fat : number
}.

Definition no_totals : totals :=
  {| calories := of_Z 0; protein := of_Z 0; carbs := of_Z 0; fat := of_Z 0 |}.

(** The callback of the reduce.  Reading a property of
    [meal.analysis.meal_summary] throws when there is no summary. *)
Definition accumulate (acc : totals) (m : meal) : result totals :=
  match meal_summary (analysis m) with
  | None => Threw TypeError
  | Some s =>
      Returned
        {| calories := add (calories acc) (or_else (total_calories s) (of_Z 0));
           protein := add (protein acc) (or_else (total_protein_g s) (of_Z 0));
           carbs := add (carbs acc) (or_else (total_carbs_g s) (of_Z 0));
           fat := add (fat acc) (or_else (total_fat_g s) (of_Z 0)) |}
  end.

(** [array.reduce(callback, init)], left to right; a throwing callback
    ends it. *)
Fixpoint reduce {A B : Type} (f : B -> A -> result B) (l : list A) (acc : B)
  : result B :=
  match l with
  | [] => Returned acc
  | x :: rest =>
      match f acc x with
      | Returned acc' => reduce f rest acc'
      | Threw e => Threw e
      end
  end.

(** [const totals = dailyLog.reduce(...)] *)
Definition computeTotals (st : state) : result totals :=
  reduce accumulate (dailyLog st) no_totals.

Record progress : Type := {
  percent : number;
  overGoal : bool
}.

(** The rest of [updateDashboard]: the width of the progress bar and the
    test that colours it. *)
Definition progress_of (t : totals) (goal : number) : progress :=
  {| percent :=
       if gt goal (of_Z 0)
       then min (mul (div (calories t) goal) (of_Z 100)) (of_Z 100)
       else of_Z 0;
     overGoal := gt (calories t) goal |}.

Definition computeProgress (st : state) : result progress :=
  match computeTotals st with
  | Returned t => Returned (progress_of t (calorieGoal st))
  | Threw e => Threw e
  end.

(** ToIntegerOrInfinity followed by the clamping of [splice]: the index
    at which [splice(start, ...)] starts on an array of length [len]. *)
Definition truncate (q : Qc) : Z := Z.quot (Qnum q) (Zpos (Qden q)).

Definition actual_start (start : number) (len : Z) : Z :=
  match start with
  | NaN => Z.min 0 len
  | NegInf => 0
  | PosInf => len
  | Fin q =>
      let relativeStart := truncate q in
      if relativeStart <? 0 then Z.max (len + relativeStart) 0
      else Z.min relativeStart len
  end.

(** [array.splice(start, deleteCount)], the array afterwards. *)
Definition splice {A : Type} (l : list A) (start : number) (deleteCount : Z)
  : list A :=
  let len := Z.of_nat (List.length l) in
  let actualStart := actual_start start len in
  let actualDeleteCount := Z.min (Z.max deleteCount 0) (len - actualStart) in
  firstn (Z.to_nat actualStart) l
    ++ skipn (Z.to_nat (actualStart + actualDeleteCount)) l.

(** [handleGoalChange]: [calorieGoal = parseInt(event.target.value, 10) || 0] *)
Definition handleGoalChange (value : jsstring) (st : state) : state :=
  {| dailyLog := dailyLog st;
     calorieGoal := or_else (Some (parseInt10 value)) (of_Z 0) |}.

(** [handleClearLog]; [confirmed] is what [confirm(...)] answers. *)
Definition handleClearLog (confirmed : bool) (st : state) : state :=
  if confirmed
  then {| dailyLog := []; calorieGoal := calorieGoal st |}
  else st.

(** [handleRemoveMeal]; [index] is [event.target.dataset.index]. *)
Definition handleRemoveMeal (index : jsstring) (st : state) : state :=
  let indexToRemove := parseInt10 index in
  {| dailyLog := splice (dailyLog st) indexToRemove 1;
     calorieGoal := calorieGoal st |}.

End Ledger.

Import Ledger.

(** ** The remote service as the client sees it *)

(** The envelope [response.json()] resolves to, as far as it is read:
    [result.candidates?.[0]] and [candidate.content?.parts?.[0]?.text].
    The [text] is a string, or a truthy value of another kind (a number,
    true, an array, an object) given by the string [JSON.parse] converts it
    to, which is empty for the array []; a falsy value of another kind (0,
    false, null) is read like a missing one. *)
Inductive text_value : Type :=
| TextString (s : jsstring)
| TextOther (converted : jsstring).

Record part : Type := { text : option text_value }.
Record content_t : Type := { parts : option (list part) }.
Record candidate_t : Type := { content : option content_t }.

(** What [response.json()] resolves to: JSON null, or a value with its
    [candidates] property, if any (a number, a string or an array has
    none). *)
Inductive envelope : Type :=
| JsonNull
| JsonValue (candidates_property : option (list candidate_t)).

(** [result.candidates], where reading it does not throw. *)
Definition candidates (result : envelope) : option (list candidate_t) :=
  match result with
  | JsonNull => None
  | JsonValue c => c
  end.

(** A resolved [fetch]; [body] is [None] when [response.json()] rejects. *)
Record response : Type := {
  status : Z;
  statusText : jsstring;
  body : option envelope
}.

(** The environment: what the n-th call of [fetch] gives ([None]: it
    rejects) and what the n-th call of [Math.random] draws. *)
Record world : Type := {
  fetch_outcome : nat -> option response;
  random_draw : nat -> Qc
}.

(** What the code has done to the environment so far: the user query of
    each request and each delay handed to [setTimeout], oldest first, and
    the number of random draws. *)
Record trace : Type := {
  requests : list jsstring;
  delays : list number;
  draws : nat
}.

Definition no_trace : trace := {| requests := []; delays := []; draws := 0 |}.

(** ** The analysis client *)

Module Client.

(** Computations that read the environment, extend the trace and may
    throw. *)
Definition M (A : Type) : Type := trace -> result A * trace.

Definition ret {A : Type} (a : A) : M A := fun t => (Returned a, t).

Definition throw {A : Type} (e : error) : M A := fun t => (Threw e, t).

Definition bind {A B : Type} (c : M A) (k : A -> M B) : M B :=
  fun t =>
    match c t with
    | (Returned a, t') => k a t'
    | (Threw e, t') => (Threw e, t')
    end.

Declare Scope client_scope.
Delimit Scope client_scope with client.
Notation "x <- c ;; k" := (bind c (fun x => k))
  (at level 61, c at next level, right associativity) : client_scope.

Local Open Scope client_scope.

Definition maxAttempts : nat := 5.

(** [response.ok] *)
Definition ok (r : response) : bool :=
  (200 <=? status r) && (status r <=? 299).

(** [response.status === 429 || response.status >= 500] *)
Definition retryable (r : response) : bool :=
  (status r =? 429) || (500 <=? status r).

(** [`Analyze this meal: "${mealDescription}"`] *)
Definition userQuery (mealDescription : jsstring) : jsstring :=
  lit "Analyze this meal: " ++ [34%N] ++ mealDescription ++ [34%N].

(** [result.candidates?.[0]] *)
Definition first_candidate (result : envelope) : option candidate_t :=
  match candidates result with
  | Some cs => nth_error cs 0
  | None => None
  end.

(** [candidate.content?.parts?.[0]?.text] *)
Definition candidate_text (candidate : candidate_t) : option text_value :=
  match content candidate with
  | Some c =>
      match parts c with
      | Some ps =>
          match nth_error ps 0 with
          | Some p => text p
          | None => None
          end
      | None => None
      end
  | None => None
  end.

(** The text the condition [candidate && candidate.content?.parts?.[0]?.text]
    lets through, as [JSON.parse] receives it: there is a first candidate
    and its text is truthy. *)
Definition payload_text (result : envelope) : option jsstring :=
  match first_candidate result with
  | Some candidate =>
      match candidate_text candidate with
      | Some (TextString t) => if Str.truthy t then Some t else None
      | Some (TextOther t) => Some t
      | None => None
      end
  | None => None
  end.

Section WithEnvironment.

(** The built-in [JSON.parse] on the text of the service, read at the
    shape of [nutritionSchema]: [None] when it throws, [Some None] for a
    falsy value such as null, [Some (Some v)] otherwise. *)
Variable JSON_parse : jsstring -> option (option nutrition).

Variable w : world.

(** [await fetch(GEMINI_API_URL, ...)] *)
Definition fetch (query : jsstring) : M response :=
  fun t =>
    let t' := {| requests := requests t ++ [query];
                 delays := delays t;
                 draws := draws t |} in
    match fetch_outcome w (List.length (requests t)) with
    | Some r => (Returned r, t')
    | None => (Threw NetworkError, t')
    end.

(** [Math.random()] *)
Definition random : M number :=
  fun t =>
    (Returned (Fin (random_draw w (draws t))),
     {| requests := requests t; delays := delays t; draws := S (draws t) |}).

(** [await new Promise(resolve => setTimeout(resolve, delay))] *)
Definition setTimeout (delay : number) : M unit :=
  fun t =>
    (Returned tt,
     {| requests := requests t;
        delays := delays t ++ [delay];
        draws := draws t |}).

(** The while loop of [getNutritionalInfo].  [fuel] bounds the number of
    iterations; the loop condition is tested as in the source. *)
Fixpoint retry_loop (fuel : nat) (query : jsstring) (attempt : nat)
  (last : option response) : M (option response) :=
  match fuel with
  | O => ret last
  | S fuel' =>
      if (attempt <? maxAttempts)%nat then
        r <- fetch query ;;
        if ok r then ret (Some r)
        else if retryable r then
          x <- random ;;
          let delay := add (mul (pow2 attempt) (of_Z 1000))
                           (mul x (of_Z 1000)) in
          _ <- setTimeout delay ;;
          retry_loop fuel' query (S attempt) (Some r)
        else throw (ApiError (statusText r) (status r))
      else ret last
  end.

(** [getNutritionalInfo]; the catch block logs and rethrows. *)
Definition getNutritionalInfo (mealDescription : jsstring)
  : M (option nutrition) :=
  last <- retry_loop maxAttempts (userQuery mealDescription) 0 None ;;
  match last with
  | None => throw TypeError
  | Some r =>
      if negb (ok r) then throw (RequestFailed maxAttempts)
      else
        match body r with
        | None => throw SyntaxError
        | Some JsonNull => throw TypeError
        | Some result =>
            match payload_text result with
            | Some t =>
                match JSON_parse t with
                | Some v => ret v
                | None => throw SyntaxError
                end
            | None => throw CouldNotParse
            end
        end
  end.

(** [analysis && analysis.meal_summary && analysis.food_items] *)
Definition accepted (a : option nutrition) : option nutrition :=
  match a with
  | Some v =>
      match meal_summary v, food_items v with
      | Some _, Some _ => Some v
      | _, _ => None
      end
  | None => None
  end.

(** [handleLogMeal]; [value] is [mealInput.value]. *)
Definition handleLogMeal (value : jsstring) (st : state) (t : trace)
  : state * trace :=
  let description := trim value in
  if negb (Str.truthy description) then (st, t)
  else
    match getNutritionalInfo description t with
    | (Returned a, t') =>
        match accepted a with
        | Some v =>
            ({| dailyLog :=
                  dailyLog st
                    ++ [{| description := description; analysis := v |}];
                calorieGoal := calorieGoal st |}, t')
        | None => (st, t')
        end
    | (Threw _, t') => (st, t')
    end.

(** The events the page reacts to, with what each handler reads. *)
Inductive event : Type :=
| LogMeal (value : jsstring)
| GoalChange (value : jsstring)
| ClearLog (confirmed : bool)
| RemoveMeal (index : jsstring).

Definition dispatch (ev : event) (st : state) (t : trace) : state * trace :=
  match ev with
  | LogMeal value => handleLogMeal value st t
  | GoalChange value => (handleGoalChange value st, t)
  | ClearLog confirmed => (handleClearLog confirmed st, t)
  | RemoveMeal index => (handleRemoveMeal index st, t)
  end.

(** The page handling a sequence of events, one after the other. *)
Fixpoint run (evs : list event) (st : state) (t : trace) : state * trace :=
  match evs with
  | [] => (st, t)
  | ev :: rest =>
      let '(st', t') := dispatch ev st t in
      run rest st' t'
  end.

End WithEnvironment.

End Client.

Import Client.

(** ** What the specification says, to compare the code with *)

Module Spec.

(** The summaries of the meals present in a log. *)
Definition summaries (log : list meal) : list summary :=
  flat_map
    (fun m => match meal_summary (analysis m) with
              | Some s => [s]
              | None => []
              end)
    log.

(** The sum of one field across the summaries of a log; a field that is
    missing or falsy counts as 0. *)
Definition field_sum (field : summary -> option number) (log : list meal)
  : number :=
  fold_left add
    (map (fun s => or_else (field s) (of_Z 0)) (summaries log))
    (of_Z 0).

(** AggregateTotals: each total is the sum of the corresponding field. *)
Definition fieldwise_sum (log : list meal) : totals :=
  {| calories := field_sum total_calories log;
     protein := field_sum total_protein_g log;
     carbs := field_sum total_carbs_g log;
     fat := field_sum total_fat_g log |}.

(** The number a field holds; a missing field reads as undefined, which is
    NaN as a number. *)
Definition field_value (v : option number) : number :=
  match v with
  | Some n => n
  | None => NaN
  end.

(** The plain sum of one field across the summaries of a log. *)
Definition plain_sum (field : summary -> option number) (log : list meal)
  : number :=
  fold_left add (map (fun s => field_value (field s)) (summaries log)) (of_Z 0).

Definition plain_fieldwise_sum (log : list meal) : totals :=
  {| calories := plain_sum total_calories log;
     protein := plain_sum total_protein_g log;
     carbs := plain_sum total_carbs_g log;
     fat := plain_sum total_fat_g log |}.

(** The integer a sequence of decimal digits denotes, by position. *)
Fixpoint positional (ds : jsstring) : Z :=
  match ds with
  | [] => 0
  | c :: rest => digit_value c * 10 ^ Z.of_nat (List.length rest) + positional rest
  end.

(** The list without its [i]-th element. *)
Fixpoint without {A : Type} (i : nat) (l : list A) : list A :=
  match l, i with
  | [], _ => []
  | _ :: rest, O => rest
  | x :: rest, S i' => x :: without i' rest
  end.

End Spec.

Import Spec.

(** ** Properties the proofs speak about *)

(** Every meal of the log has a summary. *)
Definition summarised (log : list meal) : Prop :=
  Forall (fun m => meal_summary (analysis m) <> None) log.

(** A summary field that holds a number, as the schema requires. *)
Definition holds_number (v : option number) : bool :=
  match v with
  | Some NaN | None => false
  | Some _ => true
  end.

Definition complete_summary (s : summary) : bool :=
  holds_number (total_calories s) && holds_number (total_protein_g s)
  && holds_number (total_carbs_g s) && holds_number (total_fat_g s).

(** Every summary of the log holds its four numbers. *)
Definition complete (log : list meal) : Prop :=
  Forall (fun s => complete_summary s = true) (summaries log).






(** The environment answers the fetches from the [n0]-th on with [rs]. *)
Definition scripted (w : world) (n0 : nat) (rs : list response) : Prop :=
  forall i r, nth_error rs i = Some r -> fetch_outcome w (n0 + i) = Some r.

(** A failure the loop retries. *)
Definition transient (r : response) : bool := negb (ok r) && retryable r.

(** [Math.pow(2, attempt) * 1000 + x * 1000] for a draw [x]. *)
Definition backoff (attempt : nat) (x : Qc) : number :=
  add (mul (pow2 attempt) (of_Z 1000)) (mul (Fin x) (of_Z 1000)).

(** The delays of [k] consecutive retries that start at [attempt], with the
    draws from the [d]-th on. *)
Fixpoint backoffs (w : world) (attempt d k : nat) : list number :=
  match k with
  | O => []
  | S k' => backoff attempt (random_draw w d) :: backoffs w (S attempt) (S d) k'
  end.

(** The trace after [k] retried requests of [query]. *)
Definition retried (w : world) (query : jsstring) (attempt k : nat) (t : trace)
  : trace :=
  {| requests := requests t ++ repeat query k;
     delays := delays t ++ backoffs w attempt (draws t) k;
     draws := draws t + k |}.

(** The trace after one more request of [query]. *)
Definition requested (query : jsstring) (t : trace) : trace :=
  {| requests := requests t ++ [query]; delays := delays t; draws := draws t |}.

(** The sum of one field on top of a starting value. *)
Definition field_sum_from (field : summary -> option number) (log : list meal)
  (start : number) : number :=
  fold_left add (map (fun s => or_else (field s) (of_Z 0)) (summaries log)) start.

(** ** Sample environments *)

Module Sample.

(** A response with the given status and no readable body. *)
Definition bare (code : Z) : response :=
  {| status := code; statusText := []; body := None |}.

(** A 200 response whose first candidate carries the text [t]. *)
Definition carrying (t : jsstring) : response :=
  {| status := 200;
     statusText := lit "OK";
     body :=
       Some (JsonValue
               (Some [{| content :=
                           Some {| parts := Some [{| text := Some (TextString t) |}] |} |}])) |}.

(** The environment that answers the fetches with [rs], in order, and
    rejects every later one; every draw is [x]. *)
Definition answering (rs : list response) (x : Qc) : world :=
  {| fetch_outcome := fun n => nth_error rs n; random_draw := fun _ => x |}.

(** The environment that answers every fetch with [r]. *)
Definition always (r : response) (draw : nat -> Qc) : world :=
  {| fetch_outcome := fun _ => Some r; random_draw := draw |}.

Definition eggs : nutrition :=
  {| meal_summary :=
       Some {| total_calories := Some (of_Z 140);
               total_protein_g := Some (of_Z 12);
               total_carbs_g := Some (of_Z 1);
               total_fat_g := Some (of_Z 10) |};
     food_items :=
       Some [{| name := Some (lit "egg");
                quantity := Some (lit "2");
                calories_of_item := Some (of_Z 140);
                protein_g := Some (of_Z 12);
                carbs_g := Some (of_Z 1);
                fat_g := Some (of_Z 10) |}] |}.

Definition feast : nutrition :=
  {| meal_summary :=
       Some {| total_calories := Some (of_Z 2500);
               total_protein_g := None;
               total_carbs_g := Some NaN;
               total_fat_g := Some (of_Z 90) |};
     food_items := Some [] |}.

Definition toast : nutrition :=
  {| meal_summary :=
       Some {| total_calories := Some (of_Z 80);
               total_protein_g := Some (of_Z 3);
               total_carbs_g := Some (of_Z 15);
               total_fat_g := Some (of_Z 1) |};
     food_items := Some [] |}.



(** A parser that reads every text as [eggs]. *)
Definition parse_eggs (t : jsstring) : option (option nutrition) :=
  Some (Some eggs).

Definition logged (d : string) (a : nutrition) : meal :=
  {| description := lit d; analysis := a |}.

Definition half : Qc := Q2Qc (1 # 2).

End Sample.

(** ** The shape of the inputs [parseInt] reads *)

Definition all_whitespace (s : jsstring) : Prop :=
  Forall (fun c => is_whitespace c = true) s.

Definition all_digits (s : jsstring) : Prop :=
  Forall (fun c => is_digit c = true) s.

(** An optional sign: nothing, "+" or "-". *)
Definition is_sign (s : jsstring) : Prop :=
  s = [] \/ s = [43%N] \/ s = [45%N].

Definition signum (s : jsstring) : Z :=
  match s with
  | 45%N :: _ => -1
  | _ => 1
  end.

(** [value] is white space, an optional sign, the digits [ds] (at least one)
    and a rest that does not go on with a digit. *)
Definition reads_as (value ws sgn ds rest : jsstring) : Prop :=
  value = ws ++ sgn ++ ds ++ rest
  /\ all_whitespace ws /\ is_sign sgn
  /\ ds <> [] /\ all_digits ds /\ digit_prefix rest = [].

(** ** What the log-meal handler gets from the analysis *)

(** The analysis of the trimmed [value] returned [v], and [v] has both a
    [meal_summary] and a [food_items]. *)
Definition analysed (JSON_parse : jsstring -> option (option nutrition))
  (w : world) (value : jsstring) (t : trace) (v : nutrition) : Prop :=
  trim value <> []
  /\ fst (getNutritionalInfo JSON_parse w (trim value) t) = Returned (Some v)
  /\ (exists s, meal_summary v = Some s)
  /\ (exists items, food_items v = Some items).

(** ** The page around the handlers *)

(** The code units of a decimal numeral. *)
Fixpoint uint_units (d : Decimal.uint) : jsstring :=
  match d with
  | Decimal.Nil => []
  | Decimal.D0 d' => 48%N :: uint_units d'
  | Decimal.D1 d' => 49%N :: uint_units d'
  | Decimal.D2 d' => 50%N :: uint_units d'
  | Decimal.D3 d' => 51%N :: uint_units d'
  | Decimal.D4 d' => 52%N :: uint_units d'
  | Decimal.D5 d' => 53%N :: uint_units d'
  | Decimal.D6 d' => 54%N :: uint_units d'
  | Decimal.D7 d' => 55%N :: uint_units d'
  | Decimal.D8 d' => 56%N :: uint_units d'
  | Decimal.D9 d' => 57%N :: uint_units d'
  end.

(** [`${index}`] for an array index, as the template of [renderMealLog]
    writes it into [data-index]: its decimal digits, "0" for zero. *)
Definition decimal (n : N) : jsstring := uint_units (N.to_uint n).

(** The elements of the page [handleLogMeal] reads and writes. *)
Record page : Type := {
  mealInput_value : jsstring;
  errorMessage_text : jsstring;
  errorMessage_hidden : bool;
  logMealBtn_disabled : bool;
  logMealBtn_text : jsstring;
  loader_hidden : bool
}.

(** [showError(message)] *)
Definition showError (message : jsstring) (p : page) : page :=
  {| mealInput_value := mealInput_value p;
     errorMessage_text := message;
     errorMessage_hidden := false;
     logMealBtn_disabled := logMealBtn_disabled p;
     logMealBtn_text := logMealBtn_text p;
     loader_hidden := loader_hidden p |}.

(** The loading state at the start of the try block. *)
Definition start_loading (p : page) : page :=
  {| mealInput_value := mealInput_value p;
     errorMessage_text := errorMessage_text p;
     errorMessage_hidden := true;
     logMealBtn_disabled := true;
     logMealBtn_text := lit "Analyzing...";
     loader_hidden := false |}.

(** The finally block. *)
Definition stop_loading (p : page) : page :=
  {| mealInput_value := mealInput_value p;
     errorMessage_text := errorMessage_text p;
     errorMessage_hidden := errorMessage_hidden p;
     logMealBtn_disabled := false;
     logMealBtn_text := lit "Analyze & Log Meal";
     loader_hidden := true |}.

(** [mealInput.value = ''] *)
Definition clear_input (p : page) : page :=
  {| mealInput_value := [];
     errorMessage_text := errorMessage_text p;
     errorMessage_hidden := errorMessage_hidden p;
     logMealBtn_disabled := logMealBtn_disabled p;
     logMealBtn_text := logMealBtn_text p;
     loader_hidden := loader_hidden p |}.

Definition please_enter : jsstring := lit "Please enter a meal description.".

Definition could_not_analyze : jsstring :=
  lit "The AI could not analyze this meal. Please try rephrasing.".

Definition error_occurred : jsstring :=
  lit "An error occurred while analyzing the meal. Please check the console and try again.".

(** [handleLogMeal] with the page: the description is read from
    [mealInput.value], and the error message, the button, the loader and
    the input are written as the source writes them.  The DOM is not
    modelled, so whether [updateUI()] completes on a state or throws (as
    [renderMealLog] does on an item that is null) is asked of [renders]; a
    throw inside the try block is caught like one of the analysis, after
    the meal has been pushed. *)
Definition handleLogMeal_page
  (JSON_parse : jsstring -> option (option nutrition)) (w : world)
  (renders : state -> bool)
  (st : state) (p : page) (t : trace) : state * page * trace :=
  let description := trim (mealInput_value p) in
  if negb (Str.truthy description) then (st, showError please_enter p, t)
  else
    let p1 := start_loading p in
    match getNutritionalInfo JSON_parse w description t with
    | (Returned a, t') =>
        match accepted a with
        | Some v =>
            let st' :=
              {| dailyLog :=
                   dailyLog st
                     ++ [{| description := description; analysis := v |}];
                 calorieGoal := calorieGoal st |} in
            if renders st'
            then (st', stop_loading (clear_input p1), t')
            else (st', stop_loading (showError error_occurred p1), t')
        | None => (st, stop_loading (showError could_not_analyze p1), t')
        end
    | (Threw _, t') => (st, stop_loading (showError error_occurred p1), t')
    end.

(** ** More properties the proofs speak about *)

(** A description as the handler stores it: not empty, and neither its
    first nor its last code unit is white space. *)
Definition well_trimmed (s : jsstring) : Prop :=
  s <> []
  /\ is_whitespace (hd 32%N s) = false
  /\ is_whitespace (List.last s 32%N) = false.

(** A meal as the handler logs it. *)
Definition well_formed (m : meal) : Prop :=
  well_trimmed (description m)
  /\ meal_summary (analysis m) <> None
  /\ food_items (analysis m) <> None.

(** The number of [LogMeal] events in a sequence. *)
Fixpoint submissions (evs : list event) : nat :=
  match evs with
  | [] => 0
  | LogMeal _ :: rest => S (submissions rest)
  | _ :: rest => submissions rest
  end.

(** A draw of [Math.random]: at least 0 and below 1. *)
Definition unit_draws (w : world) : Prop :=
  forall n, (Q2Qc 0 <= random_draw w n)%Qc /\ (random_draw w n < Q2Qc 1)%Qc.

(** The delay of the retry after attempt [i] lies in
    [[2^i * 1000, 2^i * 1000 + 1000]]: it is not below the one and not
    above the other. *)
Definition in_backoff_window (i : nat) (x : number) : Prop :=
  is_NaN x = false
  /\ gt (of_Z (2 ^ Z.of_nat i * 1000)) x = false
  /\ gt x (of_Z (2 ^ Z.of_nat i * 1000 + 1000)) = false.

(** The sum of a list of delays. *)
Definition total_delay (ds : list number) : number :=
  fold_left add ds (of_Z 0).

(** What the client makes of a response with a 2xx status: the value its
    text parses to, or the error of the first step that fails (reading the
    body, reading [candidates] of null, finding the text, parsing it). *)
Definition reading_of (JSON_parse : jsstring -> option (option nutrition))
  (r : response) : result (option nutrition) :=
  match body r with
  | None => Threw SyntaxError
  | Some JsonNull => Threw TypeError
  | Some result =>
      match payload_text result with
      | None => Threw CouldNotParse
      | Some txt =>
          match JSON_parse txt with
          | Some v => Returned v
          | None => Threw SyntaxError
          end
      end
  end.

(** A goal as [handleGoalChange] leaves it: an integer or an infinity. *)
Definition integer_or_infinite (n : number) : Prop :=
  (exists z, n = of_Z z) \/ n = PosInf \/ n = NegInf.

(** What holds of every state the page can be in: the meals are as the
    handler logs them and the goal is an integer or an infinity. *)
Definition sound (st : state) : Prop :=
  Forall well_formed (dailyLog st) /\ integer_or_infinite (calorieGoal st).

(** ** The progress bar on binary64 numbers *)

Module Binary64.

Local Open Scope float_scope.

(** [Math.min(x, y)]: NaN as soon as one side is NaN, and -0 below +0. *)
Definition Math_min (x y : float) : float :=
  match PrimFloat.compare x y with
  | FLt => x
  | FGt => y
  | FEq => if get_sign x then x else y
  | FNotComparable => nan
  end.

(** [calorieGoal > 0 ? Math.min((totals.calories / calorieGoal) * 100, 100) : 0] *)
Definition width (calories goal : float) : float :=
  if 0 <? goal then Math_min (calories / goal * 100) 100 else 0.



End Binary64.
(** * Facts about the numbers *)

Lemma Qc_is_zero_true (q : Qc) : Qc_is_zero q = true <-> q = Q2Qc 0.
Proof.
  unfold Qc_is_zero. rewrite Qceq_alt.
  destruct (q ?= Q2Qc 0)%Qc; split; congruence.
Qed.

Lemma Qc_is_zero_false (q : Qc) : Qc_is_zero q = false <-> q <> Q2Qc 0.
Proof.
  rewrite <- Qc_is_zero_true. destruct (Qc_is_zero q); split; congruence.
Qed.

Lemma Qc_ltb_lt (a b : Qc) : Qc_ltb a b = true <-> (a < b)%Qc.
Proof.
  unfold Qc_ltb. rewrite Qclt_alt.
  destruct (a ?= b)%Qc; split; congruence.
Qed.

Lemma Qc_ltb_ge (a b : Qc) : Qc_ltb a b = false <-> (b <= a)%Qc.
Proof.
  split; intro H.
  - apply Qcnot_lt_le. intro L. apply Qc_ltb_lt in L. congruence.
  - destruct (Qc_ltb a b) eqn:E; [|reflexivity].
    apply Qc_ltb_lt in E. apply Qcle_not_lt in H. contradiction.
Qed.

(** Up to [2^53] in magnitude an integer is its own Number value. *)
Lemma nearest_small (z : Z) : Z.abs z <= 2 ^ 53 -> nearest z = of_Z z.
Proof.
  intro H. unfold nearest. apply Z.leb_le in H. rewrite H. reflexivity.
Qed.

(** The Number value of an integer is an integer or an infinity. *)
Lemma nearest_integer_or_infinite (z : Z) :
  (exists z', nearest z = of_Z z') \/ nearest z = PosInf \/ nearest z = NegInf.
Proof.
  unfold nearest. destruct (Z.abs z <=? 2 ^ 53); [left; eexists; reflexivity|].
  cbv zeta.
  match goal with |- context [if ?b then (if z <? 0 then _ else _) else _] =>
    destruct b end.
  - destruct (z <? 0); auto.
  - left. eexists. reflexivity.
Qed.

(** Two finite numbers are equal when their values compare equal. *)
Lemma Fin_eq (a b : Qc) : (a ?= b)%Qc = Eq -> Fin a = Fin b.
Proof. intro H. f_equal. apply Qceq_alt, H. Qed.



(** [v || 0] is [v] unless [v] is missing or NaN; a zero is replaced by 0. *)
Lemma or_else_zero_number (n : number) :
  n <> NaN -> or_else (Some n) (of_Z 0) = n.
Proof.
  intro H. destruct n as [| |q|]; simpl; try congruence.
  destruct (Qc_is_zero q) eqn:E; simpl; [|reflexivity].
  apply Qc_is_zero_true in E. subst q. reflexivity.
Qed.





Lemma gt_asym (a b : number) : gt a b = true -> gt b a = false.
Proof.
  destruct a as [| |x|], b as [| |y|]; simpl; try congruence.
  intro H. apply Qc_ltb_lt in H. apply Qc_ltb_ge. apply Qclt_le_weak, H.
Qed.

(** * Facts about the ledger *)

Lemma field_sum_from_cons field m s log start :
  meal_summary (analysis m) = Some s ->
  field_sum_from field (m :: log) start =
  field_sum_from field log (add start (or_else (field s) (of_Z 0))).
Proof.
  intro H. unfold field_sum_from, summaries. simpl. rewrite H. reflexivity.
Qed.

Lemma summarised_cons m log :
  summarised (m :: log) <->
  meal_summary (analysis m) <> None /\ summarised log.
Proof.
  unfold summarised. split.
  - intro H. inversion H; subst. split; assumption.
  - intros [H1 H2]. constructor; assumption.
Qed.

(** The reduce of a log whose meals all have a summary never throws, and
    its four accumulators are four independent sums. *)
Lemma reduce_accumulate (log : list meal) :
  summarised log ->
  forall acc,
    reduce accumulate log acc =
    Returned
      {| calories := field_sum_from total_calories log (calories acc);
         protein := field_sum_from total_protein_g log (protein acc);
         carbs := field_sum_from total_carbs_g log (carbs acc);
         fat := field_sum_from total_fat_g log (fat acc) |}.
Proof.
  induction log as [|m log IH]; intros S acc.
  - destruct acc; reflexivity.
  - apply summarised_cons in S. destruct S as [Hm S].
    destruct (meal_summary (analysis m)) as [s|] eqn:E; [|congruence].
    simpl. unfold accumulate at 1. rewrite E.
    rewrite (IH S). simpl.
    rewrite !(field_sum_from_cons _ m s log _ E). reflexivity.
Qed.

Lemma computeTotals_summarised (st : state) :
  summarised (dailyLog st) ->
  computeTotals st = Returned (fieldwise_sum (dailyLog st)).
Proof.
  intro S. unfold computeTotals. rewrite (reduce_accumulate _ S). reflexivity.
Qed.

Lemma or_else_holds_number (v : option number) :
  holds_number v = true -> or_else v (of_Z 0) = field_value v.
Proof.
  destruct v as [n|]; [|discriminate]. intro H. cbn [field_value].
  apply or_else_zero_number. intro E. subst n. discriminate H.
Qed.

(** On a log whose summaries hold all their numbers, counting a falsy field
    as 0 changes nothing: the sums are the plain sums. *)
Lemma fieldwise_sum_plain (log : list meal) :
  complete log -> fieldwise_sum log = plain_fieldwise_sum log.
Proof.
  unfold complete. rewrite Forall_forall. intro C.
  unfold fieldwise_sum, plain_fieldwise_sum, field_sum, plain_sum.
  f_equal; f_equal; apply map_ext_in; intros s I;
    specialize (C s I); unfold complete_summary in C;
    repeat (apply andb_prop in C; destruct C as [C ?]);
    apply or_else_holds_number; assumption.
Qed.

Lemma summarised_app l1 l2 :
  summarised l1 -> summarised l2 -> summarised (l1 ++ l2).
Proof. unfold summarised. intros. apply Forall_app. split; assumption. Qed.

Lemma summarised_firstn n log : summarised log -> summarised (firstn n log).
Proof.
  unfold summarised. revert n. induction log as [|m log IH]; intros [|n] H; simpl;
    try constructor.
  - inversion H; assumption.
  - apply IH. inversion H; assumption.
Qed.

Lemma summarised_skipn n log : summarised log -> summarised (skipn n log).
Proof.
  unfold summarised. revert n. induction log as [|m log IH]; intros [|n] H; simpl;
    try assumption.
  apply IH. inversion H; assumption.
Qed.

Lemma summarised_splice log start count :
  summarised log -> summarised (splice log start count).
Proof.
  intro H. unfold splice. apply summarised_app.
  - apply summarised_firstn, H.
  - apply summarised_skipn, H.
Qed.

(** * Facts about the retry loop *)

Section RetryLoop.

Variable w : world.
Variable query : jsstring.

Lemma scripted_head n0 r rs :
  scripted w n0 (r :: rs) -> fetch_outcome w n0 = Some r.
Proof.
  intro H. specialize (H O r eq_refl). rewrite Nat.add_0_r in H. exact H.
Qed.

Lemma scripted_tail n0 r rs :
  scripted w n0 (r :: rs) -> scripted w (S n0) rs.
Proof.
  intros H i r' E. specialize (H (S i) r' E).
  rewrite Nat.add_succ_r in H. exact H.
Qed.

Lemma scripted_app n0 rs1 rs2 :
  scripted w n0 (rs1 ++ rs2) ->
  scripted w n0 rs1 /\ scripted w (n0 + List.length rs1) rs2.
Proof.
  intro H. split; intros i r E.
  - apply H. rewrite nth_error_app1; [exact E|].
    apply nth_error_Some. congruence.
  - rewrite <- Nat.add_assoc. apply H.
    rewrite nth_error_app2 by lia.
    replace (List.length rs1 + i - List.length rs1)%nat with i by lia. exact E.
Qed.

Lemma retried_zero attempt t : retried w query attempt 0 t = t.
Proof.
  destruct t. unfold retried. simpl. rewrite !app_nil_r, Nat.add_0_r. reflexivity.
Qed.

Lemma retried_succ attempt k t :
  retried w query (S attempt) k (retried w query attempt 1 t) =
  retried w query attempt (S k) t.
Proof.
  unfold retried. simpl. rewrite <- !app_assoc. simpl.
  rewrite Nat.add_1_r, Nat.add_succ_r. reflexivity.
Qed.

(** One iteration that meets a transient failure: a request, a draw, a
    delay, and the loop goes on with the next attempt. *)
Lemma retry_loop_transient fuel attempt last t r :
  (attempt < maxAttempts)%nat ->
  fetch_outcome w (List.length (requests t)) = Some r ->
  transient r = true ->
  retry_loop w (S fuel) query attempt last t =
  retry_loop w fuel query (S attempt) (Some r) (retried w query attempt 1 t).
Proof.
  intros A F T. apply andb_prop in T. destruct T as [T1 T2].
  apply negb_true_iff in T1.
  simpl. apply Nat.ltb_lt in A. rewrite A.
  unfold bind at 1. unfold fetch at 1. rewrite F, T1, T2.
  unfold bind, random, setTimeout. simpl.
  unfold retried, backoff. simpl. rewrite Nat.add_1_r. reflexivity.
Qed.

(** One iteration that meets a success: a request, and the loop ends. *)
Lemma retry_loop_ok fuel attempt last t r :
  (attempt < maxAttempts)%nat ->
  fetch_outcome w (List.length (requests t)) = Some r ->
  ok r = true ->
  retry_loop w (S fuel) query attempt last t =
  (Returned (Some r), requested query t).
Proof.
  intros A F K. simpl. apply Nat.ltb_lt in A. rewrite A.
  unfold bind, fetch. rewrite F, K. reflexivity.
Qed.

(** One iteration that meets any other status: a request, and the error. *)
Lemma retry_loop_terminal fuel attempt last t r :
  (attempt < maxAttempts)%nat ->
  fetch_outcome w (List.length (requests t)) = Some r ->
  ok r = false ->
  retryable r = false ->
  retry_loop w (S fuel) query attempt last t =
  (Threw (ApiError (statusText r) (status r)), requested query t).
Proof.
  intros A F K R. simpl. apply Nat.ltb_lt in A. rewrite A.
  unfold bind, fetch. rewrite F, K, R. reflexivity.
Qed.

Lemma last_nonempty {A : Type} (x : A) (l : list A) (d d' : A) :
  List.last (x :: l) d = List.last (x :: l) d'.
Proof.
  revert x. induction l as [|y l IH]; intro x; [reflexivity|].
  change (List.last (y :: l) d = List.last (y :: l) d'). apply IH.
Qed.

Lemma last_response_cons (r : response) rs (d : option response) :
  List.last (map Some (r :: rs)) d = List.last (map Some rs) (Some r).
Proof.
  destruct rs as [|r' rs]; [reflexivity|].
  change (List.last (map Some (r' :: rs)) d = List.last (map Some (r' :: rs)) (Some r)).
  apply last_nonempty.
Qed.

(** The loop never runs out of fuel: any fuel that covers the attempts
    left gives the same result. *)
Lemma retry_loop_fuel fuel1 :
  forall fuel2 attempt last t,
    (maxAttempts - attempt <= fuel1)%nat ->
    (maxAttempts - attempt <= fuel2)%nat ->
    retry_loop w fuel1 query attempt last t =
    retry_loop w fuel2 query attempt last t.
Proof.
  induction fuel1 as [|fuel1 IH]; intros [|fuel2] attempt last t F1 F2;
    try reflexivity.
  - simpl. assert ((attempt <? maxAttempts)%nat = false) as ->; [|reflexivity].
    apply Nat.ltb_ge. lia.
  - simpl. assert ((attempt <? maxAttempts)%nat = false) as ->; [|reflexivity].
    apply Nat.ltb_ge. lia.
  - simpl. destruct (attempt <? maxAttempts)%nat eqn:A; [|reflexivity].
    apply Nat.ltb_lt in A.
    unfold bind, fetch, random, setTimeout.
    destruct (fetch_outcome w (List.length (requests t))) as [r|]; [|reflexivity].
    destruct (ok r); [reflexivity|].
    destruct (retryable r); [|reflexivity].
    apply IH; lia.
Qed.

(** A run of transient failures: one request and one delay each. *)
Lemma retry_loop_transients rs :
  Forall (fun r => transient r = true) rs ->
  forall fuel attempt last t,
    scripted w (List.length (requests t)) rs ->
    (attempt + List.length rs <= maxAttempts)%nat ->
    (List.length rs <= fuel)%nat ->
    retry_loop w fuel query attempt last t =
    retry_loop w (fuel - List.length rs) query (attempt + List.length rs)
      (List.last (map Some rs) last)
      (retried w query attempt (List.length rs) t).
Proof.
  induction 1 as [|r rs T _ IH]; intros fuel attempt last t Sc A F.
  - simpl. rewrite Nat.sub_0_r, Nat.add_0_r, retried_zero. reflexivity.
  - simpl List.length in A, F. destruct fuel as [|fuel]; [lia|].
    rewrite (retry_loop_transient fuel attempt last t r);
      [|lia|exact (scripted_head _ _ _ Sc)|exact T].
    rewrite IH; [| |lia|lia].
    + rewrite retried_succ, last_response_cons. simpl List.length.
      rewrite Nat.add_succ_r. reflexivity.
    + apply scripted_tail in Sc. unfold retried. simpl.
      rewrite length_app. simpl. rewrite Nat.add_1_r. exact Sc.
Qed.

Lemma retried_requests attempt k t :
  List.length (requests (retried w query attempt k t)) =
  (List.length (requests t) + k)%nat.
Proof. unfold retried. simpl. rewrite length_app, repeat_length. reflexivity. Qed.

Lemma backoffs_length attempt d k : List.length (backoffs w attempt d k) = k.
Proof.
  revert attempt d. induction k as [|k IH]; intros; simpl; [reflexivity|].
  rewrite IH. reflexivity.
Qed.

Lemma retried_delays attempt k t :
  List.length (delays (retried w query attempt k t)) =
  (List.length (delays t) + k)%nat.
Proof. unfold retried. simpl. rewrite length_app, backoffs_length. reflexivity. Qed.

Lemma backoffs_snoc attempt d k :
  backoffs w attempt d (S k) =
  backoffs w attempt d k
    ++ [backoff (attempt + k) (random_draw w (d + k))].
Proof.
  revert attempt d. induction k as [|k IH]; intros attempt d.
  - simpl. rewrite !Nat.add_0_r. reflexivity.
  - change (backoffs w attempt d (S (S k)))
      with (backoff attempt (random_draw w d)
              :: backoffs w (S attempt) (S d) (S k)).
    rewrite IH. simpl. rewrite !Nat.add_succ_r. reflexivity.
Qed.

(** The last delay of a run of retries. *)
Lemma backoffs_last attempt d k (l : list number) (x : number) :
  List.last (l ++ backoffs w attempt d (S k)) x =
  backoff (attempt + k) (random_draw w (d + k)).
Proof. rewrite backoffs_snoc, app_assoc. apply last_last. Qed.

End RetryLoop.

(** * The analysis client *)

Section ClientFacts.

Variable JSON_parse : jsstring -> option (option nutrition).
Variable w : world.

(** What [getNutritionalInfo] does once the loop has ended with a
    response. *)
Lemma getNutritionalInfo_unfold d t :
  getNutritionalInfo JSON_parse w d t =
  match retry_loop w maxAttempts (userQuery d) 0 None t with
  | (Returned None, t') => (Threw TypeError, t')
  | (Returned (Some r), t') =>
      if negb (ok r) then (Threw (RequestFailed maxAttempts), t')
      else (reading_of JSON_parse r, t')
  | (Threw e, t') => (Threw e, t')
  end.
Proof.
  unfold getNutritionalInfo, bind, reading_of.
  destruct (retry_loop w maxAttempts (userQuery d) 0 None t) as [[[r|]|e] t'];
    try reflexivity.
  destruct (negb (ok r)); [reflexivity|].
  destruct (body r) as [[|c]|]; try reflexivity.
  destruct (payload_text (JsonValue c)) as [txt|]; [|reflexivity].
  destruct (JSON_parse txt); reflexivity.
Qed.

(** A body whose text is found is not JSON null, and is read to the end. *)
Lemma reading_of_text r result txt :
  body r = Some result ->
  payload_text result = Some txt ->
  reading_of JSON_parse r =
  match JSON_parse txt with
  | Some v => Returned v
  | None => Threw SyntaxError
  end.
Proof.
  intros B P. unfold reading_of. rewrite B.
  destruct result as [|c]; [discriminate P|]. rewrite P. reflexivity.
Qed.

(** Transient failures on all five attempts: five requests, five delays,
    then the error. *)
Lemma exhausted_retries d t rs :
  List.length rs = maxAttempts ->
  Forall (fun r => transient r = true) rs ->
  scripted w (List.length (requests t)) rs ->
  getNutritionalInfo JSON_parse w d t =
  (Threw (RequestFailed maxAttempts), retried w (userQuery d) 0 maxAttempts t).
Proof.
  intros L T Sc. rewrite getNutritionalInfo_unfold.
  rewrite (retry_loop_transients w (userQuery d) rs T); [|exact Sc|lia|lia].
  rewrite L. simpl Nat.sub. simpl Nat.add. simpl retry_loop. unfold ret.
  destruct (rev rs) as [|r5 pre] eqn:E.
  { apply (f_equal (@List.length _)) in E. rewrite length_rev, L in E. discriminate. }
  assert (rs = rev pre ++ [r5]) as ->.
  { rewrite <- (rev_involutive rs), E. reflexivity. }
  rewrite map_app. cbn [map]. rewrite last_last.
  apply Forall_app in T. destruct T as [_ T]. inversion T as [|? ? T5 _]; subst.
  apply andb_prop in T5. destruct T5 as [T5 _]. rewrite T5. reflexivity.
Qed.

(** [k] transient failures, then a response the loop does not retry:
    [k + 1] requests, [k] delays, then the error. *)
Lemma rejected_after d t pre r :
  (List.length pre < maxAttempts)%nat ->
  Forall (fun r => transient r = true) pre ->
  ok r = false ->
  retryable r = false ->
  scripted w (List.length (requests t)) (pre ++ [r]) ->
  getNutritionalInfo JSON_parse w d t =
  (Threw (ApiError (statusText r) (status r)),
   requested (userQuery d) (retried w (userQuery d) 0 (List.length pre) t)).
Proof.
  intros L T K R Sc. apply scripted_app in Sc. destruct Sc as [Sc1 Sc2].
  rewrite getNutritionalInfo_unfold.
  rewrite (retry_loop_transients w (userQuery d) pre T); [|exact Sc1|lia|unfold maxAttempts in *; lia].
  destruct (maxAttempts - List.length pre)%nat as [|fuel] eqn:E; [lia|].
  rewrite (retry_loop_terminal w (userQuery d) fuel _ _ _ r); [reflexivity|exact L| |exact K|exact R].
  rewrite retried_requests. apply (scripted_head _ _ _ _ Sc2).
Qed.

(** [k] transient failures, then a success whose text parses: [k + 1]
    requests, [k] delays, and the parsed value is returned. *)
Lemma parsed_after d t pre r result txt v :
  (List.length pre < maxAttempts)%nat ->
  Forall (fun r => transient r = true) pre ->
  ok r = true ->
  body r = Some result ->
  payload_text result = Some txt ->
  JSON_parse txt = Some v ->
  scripted w (List.length (requests t)) (pre ++ [r]) ->
  getNutritionalInfo JSON_parse w d t =
  (Returned v,
   requested (userQuery d) (retried w (userQuery d) 0 (List.length pre) t)).
Proof.
  intros L T K B P J Sc. apply scripted_app in Sc. destruct Sc as [Sc1 Sc2].
  rewrite getNutritionalInfo_unfold.
  rewrite (retry_loop_transients w (userQuery d) pre T); [|exact Sc1|lia|unfold maxAttempts in *; lia].
  destruct (maxAttempts - List.length pre)%nat as [|fuel] eqn:E; [lia|].
  rewrite (retry_loop_ok w (userQuery d) fuel _ _ _ r); [|exact L| |exact K].
  - rewrite K. cbn [negb]. rewrite (reading_of_text r result txt B P), J.
    reflexivity.
  - rewrite retried_requests. apply (scripted_head _ _ _ _ Sc2).
Qed.

End ClientFacts.

(** The text the client parses is the truthy text of the first part of the
    first candidate: a string that is not empty, or a truthy value of
    another kind as a string. *)
Lemma payload_text_shape (result : envelope) (txt : jsstring) :
  payload_text result = Some txt <->
  exists c cs ct p ps,
    candidates result = Some (c :: cs) /\ content c = Some ct /\
    parts ct = Some (p :: ps) /\
    (text p = Some (TextString txt) /\ txt <> []
     \/ text p = Some (TextOther txt)).
Proof.
  unfold payload_text, first_candidate, candidate_text. split.
  - destruct (candidates result) as [[|c cs]|]; simpl; try discriminate.
    destruct (content c) as [ct|] eqn:E1; try discriminate.
    destruct (parts ct) as [[|p ps]|] eqn:E2; simpl; try discriminate.
    destruct (text p) as [[t0|t0]|] eqn:E3; try discriminate.
    + destruct t0 as [|u t0]; cbn; try discriminate.
      intro H. inversion H; subst txt. exists c, cs, ct, p, ps.
      split; [reflexivity|]. split; [exact E1|]. split; [exact E2|].
      left. split; [exact E3|discriminate].
    + intro H. inversion H; subst txt. exists c, cs, ct, p, ps.
      split; [reflexivity|]. split; [exact E1|]. split; [exact E2|].
      right. exact E3.
  - intros (c & cs & ct & p & ps & -> & H1 & H2 & [[H3 H4]|H3]); simpl;
      rewrite H1, H2; simpl; rewrite H3; [|reflexivity].
    destruct txt; [congruence|reflexivity].
Qed.

Lemma transient_by_status (r : response) :
  ok r = false -> status r = 429 \/ 500 <= status r -> transient r = true.
Proof.
  intros K H. unfold transient, retryable. rewrite K. simpl.
  destruct H as [H|H].
  - rewrite H. reflexivity.
  - apply Z.leb_le in H. rewrite H. apply orb_true_r.
Qed.

Lemma not_ok_outside_2xx (r : response) :
  status r < 200 \/ 299 < status r -> ok r = false.
Proof.
  intro H. unfold ok. apply andb_false_iff.
  destruct H; [left; apply Z.leb_gt|right; apply Z.leb_gt]; assumption.
Qed.

Lemma scripted_always (r : response) draw n0 rs :
  Forall (eq r) rs -> scripted (Sample.always r draw) n0 rs.
Proof.
  intros H i r' E. simpl.
  rewrite Forall_forall in H. rewrite (H r'); [reflexivity|].
  apply nth_error_In in E. exact E.
Qed.

Lemma scripted_answering rs x : scripted (Sample.answering rs x) 0 rs.
Proof. intros i r E. exact E. Qed.

(** * The handlers and the log *)

Section Handlers.

Variable JSON_parse : jsstring -> option (option nutrition).
Variable w : world.

Lemma accepted_Some a v :
  accepted a = Some v <->
  a = Some v /\ (exists s, meal_summary v = Some s)
  /\ (exists items, food_items v = Some items).
Proof.
  unfold accepted. split.
  - destruct a as [v'|]; [|discriminate].
    destruct (meal_summary v') as [s|] eqn:E1; [|discriminate].
    destruct (food_items v') as [items|] eqn:E2; [|discriminate].
    intro H. inversion H; subst v'. eauto.
  - intros (-> & [s ->] & [items ->]). reflexivity.
Qed.

(** The three ways [handleLogMeal] ends. *)
Lemma handleLogMeal_cases value st t :
  (trim value = [] /\ handleLogMeal JSON_parse w value st t = (st, t))
  \/ (trim value <> []
      /\ (forall v, accepted (match fst (getNutritionalInfo JSON_parse w (trim value) t) with
                              | Returned a => a
                              | Threw _ => None
                              end) <> Some v)
      /\ handleLogMeal JSON_parse w value st t =
         (st, snd (getNutritionalInfo JSON_parse w (trim value) t)))
  \/ (exists a v,
        trim value <> []
        /\ fst (getNutritionalInfo JSON_parse w (trim value) t) = Returned a
        /\ accepted a = Some v
        /\ handleLogMeal JSON_parse w value st t =
           ({| dailyLog :=
                 dailyLog st ++ [{| description := trim value; analysis := v |}];
               calorieGoal := calorieGoal st |},
            snd (getNutritionalInfo JSON_parse w (trim value) t))).
Proof.
  unfold handleLogMeal.
  destruct (trim value) as [|c s] eqn:E; [left; split; reflexivity|].
  right. cbn [Str.truthy negb].
  destruct (getNutritionalInfo JSON_parse w (c :: s) t) as [[a|e] t'].
  - destruct (accepted a) as [v|] eqn:A.
    + right. exists a, v. repeat split; try assumption. discriminate.
    + left. repeat split; [discriminate|].
      intros v. simpl. congruence.
  - left. repeat split; [discriminate|].
    intros v. simpl. discriminate.
Qed.

Lemma handleLogMeal_summarised value st t :
  summarised (dailyLog st) ->
  summarised (dailyLog (fst (handleLogMeal JSON_parse w value st t))).
Proof.
  intro S.
  destruct (handleLogMeal_cases value st t)
    as [[_ ->]|[(_ & _ & ->)|(a & v & _ & _ & A & ->)]]; try exact S.
  simpl. apply summarised_app; [exact S|].
  apply accepted_Some in A. destruct A as (_ & [s Hs] & _).
  constructor; [|constructor]. simpl. congruence.
Qed.

Lemma dispatch_summarised ev st t :
  summarised (dailyLog st) ->
  summarised (dailyLog (fst (dispatch JSON_parse w ev st t))).
Proof.
  intro S. destruct ev as [value|value|confirmed|index]; simpl.
  - apply handleLogMeal_summarised, S.
  - exact S.
  - destruct confirmed; [constructor|exact S].
  - apply summarised_splice, S.
Qed.

Lemma run_summarised evs :
  forall st t,
    summarised (dailyLog st) ->
    summarised (dailyLog (fst (run JSON_parse w evs st t))).
Proof.
  induction evs as [|ev evs IH]; intros st t S; simpl; [exact S|].
  pose proof (dispatch_summarised ev st t S) as D.
  destruct (dispatch JSON_parse w ev st t) as [st' t']. apply IH, D.
Qed.

End Handlers.

(** * Facts about strings and parseInt *)

Lemma digit_not_whitespace (c : N) : is_digit c = true -> is_whitespace c = false.
Proof.
  unfold is_digit, is_whitespace. intro H.
  apply andb_prop in H. destruct H as [H1 H2].
  apply N.leb_le in H1, H2.
  repeat (apply orb_false_iff; split);
    try (apply N.eqb_neq; lia);
    apply andb_false_iff; first [left; apply N.leb_gt; lia | right; apply N.leb_gt; lia].
Qed.

Lemma digit_not_sign (c : N) : is_digit c = true -> c <> 45%N /\ c <> 43%N.
Proof.
  unfold is_digit. intro H. apply andb_prop in H. destruct H as [H1 H2].
  apply N.leb_le in H1, H2. lia.
Qed.

Lemma trimStart_skips (ws s : jsstring) :
  all_whitespace ws -> trimStart (ws ++ s) = trimStart s.
Proof.
  induction 1 as [|c ws Hc _ IH]; [reflexivity|].
  simpl. rewrite Hc. exact IH.
Qed.

Lemma trimStart_stops (c : N) (s : jsstring) :
  is_whitespace c = false -> trimStart (c :: s) = c :: s.
Proof. intro H. simpl. rewrite H. reflexivity. Qed.

Lemma trimStart_split (s : jsstring) :
  exists ws, all_whitespace ws /\ s = ws ++ trimStart s.
Proof.
  induction s as [|c s [ws [W E]]].
  - exists []. split; [constructor|reflexivity].
  - simpl. destruct (is_whitespace c) eqn:H.
    + exists (c :: ws). split; [constructor; assumption|].
      simpl. f_equal. exact E.
    + exists []. split; [constructor|reflexivity].
Qed.

Lemma trimStart_head (s : jsstring) (c : N) (rest : jsstring) :
  trimStart s = c :: rest -> is_whitespace c = false.
Proof.
  induction s as [|x s IH]; simpl; [discriminate|].
  destruct (is_whitespace x) eqn:H; [exact IH|].
  intro E. inversion E; subst. exact H.
Qed.

Lemma digit_prefix_app (ds rest : jsstring) :
  all_digits ds -> digit_prefix rest = [] -> digit_prefix (ds ++ rest) = ds.
Proof.
  intros D R. induction D as [|c ds Hc _ IH]; [exact R|].
  simpl. rewrite Hc, IH. reflexivity.
Qed.

Lemma digit_prefix_split (s : jsstring) :
  exists rest,
    s = digit_prefix s ++ rest /\ all_digits (digit_prefix s)
    /\ digit_prefix rest = [].
Proof.
  induction s as [|c s [rest [E [D R]]]].
  - exists []. repeat split. constructor.
  - simpl. destruct (is_digit c) eqn:H.
    + exists rest. repeat split.
      * simpl. f_equal. exact E.
      * constructor; assumption.
      * exact R.
    + exists (c :: s). repeat split; [constructor|].
      simpl. rewrite H. reflexivity.
Qed.

Lemma digits_value_from (ds : jsstring) (acc : Z) :
  fold_left (fun a c => 10 * a + digit_value c) ds acc =
  acc * 10 ^ Z.of_nat (List.length ds) + positional ds.
Proof.
  revert acc. induction ds as [|c ds IH]; intro acc.
  - simpl. lia.
  - cbn [fold_left positional List.length]. rewrite IH.
    rewrite Nat2Z.inj_succ, Z.pow_succ_r by lia. ring.
Qed.

Lemma digits_value_positional (ds : jsstring) : digits_value ds = positional ds.
Proof. unfold digits_value. rewrite digits_value_from. lia. Qed.

(** What [parseInt] reads from white space, a sign and a run of digits. *)
Lemma parseInt10_reads (value ws sgn ds rest : jsstring) :
  reads_as value ws sgn ds rest ->
  parseInt10 value = nearest (signum sgn * positional ds).
Proof.
  intros (-> & W & Sg & Ne & D & R).
  unfold parseInt10. rewrite (trimStart_skips ws _ W).
  destruct ds as [|c ds]; [congruence|].
  inversion D as [|? ? Hc D']; subst.
  pose proof (digit_not_whitespace c Hc) as Hw.
  destruct (digit_not_sign c Hc) as [N45 N43].
  assert (digit_prefix ((c :: ds) ++ rest) = c :: ds) as P
    by (apply digit_prefix_app; assumption).
  destruct Sg as [ -> | [ -> | -> ] ].
  - cbn [app]. rewrite (trimStart_stops c _ Hw).
    change ((c :: ds) ++ rest) with (c :: ds ++ rest) in *.
    apply N.eqb_neq in N45, N43. rewrite N45, N43.
    rewrite P, digits_value_positional. reflexivity.
  - change ([43%N] ++ (c :: ds) ++ rest) with (43%N :: (c :: ds) ++ rest).
    rewrite trimStart_stops by reflexivity. cbn [N.eqb Pos.eqb].
    rewrite P, digits_value_positional. reflexivity.
  - change ([45%N] ++ (c :: ds) ++ rest) with (45%N :: (c :: ds) ++ rest).
    rewrite trimStart_stops by reflexivity. cbn [N.eqb Pos.eqb].
    rewrite P, digits_value_positional. reflexivity.
Qed.

(** Every input either has no number to read or is white space, a sign and
    a run of digits. *)
Lemma parseInt10_cases (value : jsstring) :
  parseInt10 value = NaN
  \/ exists ws sgn ds rest, reads_as value ws sgn ds rest.
Proof.
  destruct (trimStart_split value) as [ws [W E]].
  assert (forall sgn s2,
             is_sign sgn -> trimStart value = sgn ++ s2 ->
             digit_prefix s2 = []
             \/ exists ws sgn ds rest, reads_as value ws sgn ds rest) as K.
  { intros sgn s2 Sg E2.
    destruct (digit_prefix_split s2) as [rest [E3 [D R]]].
    destruct (digit_prefix s2) as [|c ds] eqn:P; [left; reflexivity|].
    right. exists ws, sgn, (c :: ds), rest. unfold reads_as.
    repeat split; try assumption; [|discriminate].
    rewrite E at 1. rewrite E2, E3 at 1. reflexivity. }
  unfold parseInt10.
  destruct (trimStart value) as [|c r] eqn:T.
  - left. reflexivity.
  - destruct (c =? 45)%N eqn:C45; [|destruct (c =? 43)%N eqn:C43].
    + apply N.eqb_eq in C45. subst c.
      destruct (K [45%N] r) as [-> | H];
        [right; right; reflexivity|reflexivity|left; reflexivity|right; exact H].
    + apply N.eqb_eq in C43. subst c.
      destruct (K [43%N] r) as [-> | H];
        [right; left; reflexivity|reflexivity|left; reflexivity|right; exact H].
    + destruct (K [] (c :: r)) as [-> | H];
        [left; reflexivity|reflexivity|left; reflexivity|right; exact H].
Qed.

Lemma positional_nonneg (ds : jsstring) : 0 <= positional ds.
Proof.
  induction ds as [|c ds IH]; [reflexivity|].
  cbn [positional]. unfold digit_value.
  assert (0 <= 10 ^ Z.of_nat (List.length ds)) by (apply Z.pow_nonneg; lia).
  nia.
Qed.

Lemma signum_cases (sgn : jsstring) : signum sgn = 1 \/ signum sgn = -1.
Proof.
  unfold signum. destruct sgn as [|[|p] s]; auto.
  do 6 (try (destruct p as [p|p|]; auto)).
Qed.

Lemma signum_magnitude (sgn : jsstring) (v : Z) :
  0 <= v -> Z.abs (signum sgn * v) = v.
Proof. intro H. destruct (signum_cases sgn) as [->| ->]; lia. Qed.

(** A run of digits whose value is at most [2^53] is read exactly. *)
Lemma parseInt10_reads_exactly (value ws sgn ds rest : jsstring) :
  reads_as value ws sgn ds rest ->
  positional ds <= 2 ^ 53 ->
  parseInt10 value = of_Z (signum sgn * positional ds).
Proof.
  intros R B. rewrite (parseInt10_reads value ws sgn ds rest R).
  apply nearest_small. rewrite signum_magnitude; [exact B|apply positional_nonneg].
Qed.

Lemma of_Z_not_NaN (z : Z) : of_Z z <> NaN.
Proof. discriminate. Qed.

Lemma handleGoalChange_NaN value st :
  parseInt10 value = NaN ->
  calorieGoal (handleGoalChange value st) = of_Z 0.
Proof. intro H. simpl. rewrite H. reflexivity. Qed.

Lemma handleGoalChange_integer value st z :
  parseInt10 value = of_Z z ->
  calorieGoal (handleGoalChange value st) = of_Z z.
Proof.
  intro H. cbn [handleGoalChange calorieGoal]. rewrite H.
  apply or_else_zero_number, of_Z_not_NaN.
Qed.

(** The goal after a change is an integer or an infinity, never NaN. *)
Lemma handleGoalChange_kind value st :
  (exists z, calorieGoal (handleGoalChange value st) = of_Z z)
  \/ calorieGoal (handleGoalChange value st) = PosInf
  \/ calorieGoal (handleGoalChange value st) = NegInf.
Proof.
  destruct (parseInt10_cases value) as [N|(ws & sgn & ds & rest & R)].
  - left. exists 0. apply handleGoalChange_NaN, N.
  - pose proof (parseInt10_reads value ws sgn ds rest R) as P.
    destruct (nearest_integer_or_infinite (signum sgn * positional ds))
      as [[z E]|[E|E]]; rewrite E in P.
    + left. exists z. apply handleGoalChange_integer, P.
    + right. left. cbn [handleGoalChange calorieGoal]. rewrite P. reflexivity.
    + right. right. cbn [handleGoalChange calorieGoal]. rewrite P. reflexivity.
Qed.

(** * Facts about splice *)

Lemma Qred_inject_Z (z : Z) : Qred (inject_Z z) = inject_Z z.
Proof. apply Qred_identity. simpl. apply Z.gcd_1_r. Qed.

Lemma truncate_of_Z (z : Z) : truncate (Q2Qc (inject_Z z)) = z.
Proof.
  unfold truncate, Q2Qc. cbn [this]. rewrite Qred_inject_Z. simpl.
  apply Z.quot_1_r.
Qed.

Lemma actual_start_of_Z (i len : Z) :
  actual_start (of_Z i) len =
  if i <? 0 then Z.max (len + i) 0 else Z.min i len.
Proof. unfold actual_start, of_Z. rewrite truncate_of_Z. reflexivity. Qed.

Lemma without_firstn_skipn {A : Type} (n : nat) (l : list A) :
  firstn n l ++ skipn (S n) l = without n l.
Proof.
  revert n. induction l as [|x l IH]; intros [|n]; try reflexivity.
  cbn [firstn skipn without app]. f_equal. apply IH.
Qed.

Lemma without_beyond {A : Type} (n : nat) (l : list A) :
  (List.length l <= n)%nat -> without n l = l.
Proof.
  revert n. induction l as [|x l IH]; intros [|n] H; simpl in *;
    try reflexivity; try lia.
  f_equal. apply IH. lia.
Qed.

Lemma without_length {A : Type} (n : nat) (l : list A) :
  (n < List.length l)%nat -> List.length (without n l) = (List.length l - 1)%nat.
Proof.
  revert n. induction l as [|x l IH]; intros [|n] H; simpl in *; try lia.
  rewrite IH by lia. lia.
Qed.

(** Below the removed position nothing moves; from it on, every entry is the
    one that was one position further. *)
Lemma without_nth_error {A : Type} (n k : nat) (l : list A) :
  nth_error (without n l) k =
  if (k <? n)%nat then nth_error l k else nth_error l (S k).
Proof.
  revert n k. induction l as [|x l IH]; intros [|n] [|k]; try reflexivity.
  - simpl. destruct (_ <? _)%nat; reflexivity.
  - cbn [without nth_error]. rewrite IH. reflexivity.
Qed.

(** [splice(start, 1)] removes the entry at the clamped start, if any. *)
Lemma splice_one {A : Type} (l : list A) (start : number) :
  0 <= actual_start start (Z.of_nat (List.length l)) <= Z.of_nat (List.length l) ->
  splice l start 1 =
  without (Z.to_nat (actual_start start (Z.of_nat (List.length l)))) l.
Proof.
  intro B. unfold splice.
  set (len := Z.of_nat (List.length l)) in *.
  set (a := actual_start start len) in *.
  destruct (Z.eq_dec a len) as [E|E].
  - replace (Z.min (Z.max 1 0) (len - a)) with 0 by lia.
    rewrite Z.add_0_r, firstn_skipn.
    symmetry. apply without_beyond. unfold len in E. lia.
  - replace (Z.min (Z.max 1 0) (len - a)) with 1 by lia.
    replace (Z.to_nat (a + 1)) with (S (Z.to_nat a)) by lia.
    apply without_firstn_skipn.
Qed.

Lemma actual_start_bounds (start : number) (len : Z) :
  0 <= len -> 0 <= actual_start start len <= len.
Proof.
  intro H. unfold actual_start. destruct start as [| |q|]; try lia.
  destruct (Z.ltb_spec (truncate q) 0); lia.
Qed.

(** * Facts about the reduce *)

Lemma reduce_app {A B : Type} (f : B -> A -> result B) (l1 l2 : list A) (acc : B) :
  reduce f (l1 ++ l2) acc =
  match reduce f l1 acc with
  | Returned acc' => reduce f l2 acc'
  | Threw e => Threw e
  end.
Proof.
  revert acc. induction l1 as [|x l1 IH]; intro acc; [reflexivity|].
  simpl. destruct (f acc x); [apply IH|reflexivity].
Qed.



(** * The model on concrete inputs *)

(** A text that is the empty array is truthy and reaches [JSON.parse] as
    the empty string; an empty string is falsy and does not. *)
Example payload_text_empty_array :
  payload_text
    (JsonValue
       (Some [{| content :=
                   Some {| parts := Some [{| text := Some (TextOther []) |}] |} |}]))
  = Some [].
Proof. reflexivity. Qed.

Example payload_text_empty_string :
  payload_text
    (JsonValue
       (Some [{| content :=
                   Some {| parts := Some [{| text := Some (TextString []) |}] |} |}]))
  = None.
Proof. reflexivity. Qed.

Example parseInt10_digits_then_text : parseInt10 (lit "12abc") = of_Z 12.
Proof. reflexivity. Qed.

Example parseInt10_space_and_plus : parseInt10 (lit "  +7") = of_Z 7.
Proof. reflexivity. Qed.

Example parseInt10_fraction : parseInt10 (lit "3.9") = of_Z 3.
Proof. reflexivity. Qed.

Example parseInt10_no_digit : parseInt10 (lit "kcal") = NaN.
Proof. reflexivity. Qed.

Example parseInt10_empty : parseInt10 [] = NaN.
Proof. reflexivity. Qed.

Example trim_both_ends : trim (lit "  2 eggs ") = lit "2 eggs".
Proof. reflexivity. Qed.

Example trim_only_spaces : trim [32%N; 9%N; 160%N; 10%N] = [].
Proof. reflexivity. Qed.

Example splice_in_range : splice [1; 2; 3] (of_Z 1) 1 = [1; 3].
Proof. reflexivity. Qed.

Example splice_beyond : splice [1; 2; 3] (of_Z 3) 1 = [1; 2; 3].
Proof. reflexivity. Qed.

Example splice_from_the_end : splice [1; 2; 3] (of_Z (-2)) 1 = [1; 3].
Proof. reflexivity. Qed.

Example splice_far_below : splice [1; 2; 3] (of_Z (-7)) 1 = [2; 3].
Proof. reflexivity. Qed.

Example splice_NaN : splice [1; 2; 3] NaN 1 = [2; 3].
Proof. reflexivity. Qed.

(** The scenario of the specification: two eggs (140) and toast (80). *)
Example eggs_and_toast :
  exists tot,
    computeTotals {| dailyLog := [Sample.logged "2 eggs" Sample.eggs;
                                  Sample.logged "toast" Sample.toast];
                     calorieGoal := of_Z 2000 |} = Returned tot
    /\ calories tot = of_Z 220.
Proof.
  eexists. split; [reflexivity|]. vm_compute. apply Fin_eq. reflexivity.
Qed.

(** Two meals logged through the handler, the first one after a retried
    503, then the first meal removed: the totals are those of the toast. *)
Example log_two_remove_first :
  let w :=
    {| fetch_outcome :=
         fun n => nth_error [Sample.bare 503;
                             Sample.carrying (lit "eggs");
                             Sample.carrying (lit "toast")] n;
       random_draw := fun _ => Sample.half |} in
  let parse (t : jsstring) :=
    if (List.length t =? 4)%nat then Some (Some Sample.eggs)
    else Some (Some Sample.toast) in
  let '(st, t) :=
    run parse w
      [LogMeal (lit " 2 eggs "); LogMeal (lit "toast"); RemoveMeal (lit "0")]
      initial no_trace in
  dailyLog st = [Sample.logged "toast" Sample.toast]
  /\ computeTotals st = Returned (fieldwise_sum [Sample.logged "toast" Sample.toast])
  /\ List.length (requests t) = 3%nat
  /\ delays t = [backoff 0 Sample.half].
Proof. repeat split. Qed.

(** [parseInt] rounds an integer beyond [2^53] to binary64, a numeral of
    310 digits to Infinity; the goal takes that value. *)
Example parseInt10_rounds :
  parseInt10 (lit "9007199254740993") = of_Z 9007199254740992.
Proof. vm_compute. reflexivity. Qed.

Example parseInt10_overflows : parseInt10 (49%N :: repeat 48%N 309) = PosInf.
Proof. vm_compute. reflexivity. Qed.

Example goal_of_310_digits :
  calorieGoal (handleGoalChange (49%N :: repeat 48%N 309) initial) = PosInf.
Proof. vm_compute. reflexivity. Qed.

(** The width of the bar on binary64 numbers: a half is exact, 140 of 2000
    is 7.000000000000001. *)
Example width_1000_of_2000 :
  Binary64.width 1000%float 2000%float = 50%float.
Proof. reflexivity. Qed.

Example width_140_of_2000 :
  Binary64.width 140%float 2000%float = 0x1.c000000000001p+2%float.
Proof. reflexivity. Qed.

Example width_negative_goal :
  Binary64.width 140%float (-5)%float = 0%float.
Proof. reflexivity. Qed.

(** * The retry behaviour of the analysis client *)

(** C2, evaluated on the code.  When every fetch answers 503, the client
    makes exactly five requests and throws "API request failed after 5
    attempts."; it has then slept five times, not four: the fifth failure is
    followed by a delay of [2^4 * 1000 + x * 1000] milliseconds as well,
    after which the loop ends without another request. *)
Theorem five_503_responses_five_delays
  (JSON_parse : jsstring -> option (option nutrition)) (draw : nat -> Qc)
  (message : jsstring) (payload : option envelope)
  (d : jsstring) (t : trace) :
  let r := {| status := 503; statusText := message; body := payload |} in
  let w := Sample.always r draw in
  let '(res, t') := getNutritionalInfo JSON_parse w d t in
  res = Threw (RequestFailed 5)
  /\ requests t' = requests t ++ repeat (userQuery d) 5
  /\ List.length (delays t') = (List.length (delays t) + 5)%nat
  /\ List.last (delays t') NaN = backoff 4 (draw (draws t + 4)%nat).
Proof.
  intros r w.
  rewrite (exhausted_retries JSON_parse w d t (repeat r 5));
    [|reflexivity|repeat constructor|].
  - repeat split.
    + apply retried_delays.
    + unfold retried, maxAttempts. cbn [delays]. apply (backoffs_last w 0).
  - apply scripted_always. repeat constructor.
Qed.

(** C4.  Given the responses 429, 500 and 200, the last one carrying a text
    that [JSON.parse] reads as [v], the client returns [v] after three
    requests and exactly two delays, the first of [2^0 * 1000 + x0 * 1000]
    and the second of [2^1 * 1000 + x1 * 1000] milliseconds. *)
Theorem retry_429_500_then_200
  (JSON_parse : jsstring -> option (option nutrition)) (w : world)
  (d : jsstring) (t : trace) (r1 r2 r3 : response)
  (result : envelope) (txt : jsstring) (v : option nutrition) :
  status r1 = 429 ->
  status r2 = 500 ->
  status r3 = 200 ->
  body r3 = Some result ->
  payload_text result = Some txt ->
  JSON_parse txt = Some v ->
  scripted w (List.length (requests t)) [r1; r2; r3] ->
  let '(res, t') := getNutritionalInfo JSON_parse w d t in
  res = Returned v
  /\ requests t' = requests t ++ [userQuery d; userQuery d; userQuery d]
  /\ delays t' = delays t ++ [backoff 0 (random_draw w (draws t));
                              backoff 1 (random_draw w (S (draws t)))].
Proof.
  intros S1 S2 S3 B P J Sc.
  assert (transient r1 = true) as T1.
  { apply transient_by_status; [apply not_ok_outside_2xx|]; lia. }
  assert (transient r2 = true) as T2.
  { apply transient_by_status; [apply not_ok_outside_2xx|]; lia. }
  assert (ok r3 = true) as K3 by (unfold ok; rewrite S3; reflexivity).
  rewrite (parsed_after JSON_parse w d t [r1; r2] r3 result txt v);
    try assumption; [|unfold maxAttempts; simpl; lia|repeat constructor; assumption].
  unfold requested, retried. simpl. rewrite <- !app_assoc. repeat split.
Qed.

(** C5.  A response that is not a success, not 429 and below 500 ends the
    call at once with the "API Error" of that response: when it follows
    [k] retried failures there are [k + 1] requests and [k] delays in all,
    so no request and no delay comes after it; when it is the first
    response there is one request and no delay. *)
Theorem terminal_status_fails_at_once
  (JSON_parse : jsstring -> option (option nutrition)) (w : world)
  (d : jsstring) (t : trace) (pre : list response) (r : response) :
  (List.length pre < maxAttempts)%nat ->
  Forall (fun r' => transient r' = true) pre ->
  ok r = false ->
  status r <> 429 ->
  status r < 500 ->
  scripted w (List.length (requests t)) (pre ++ [r]) ->
  let '(res, t') := getNutritionalInfo JSON_parse w d t in
  res = Threw (ApiError (statusText r) (status r))
  /\ requests t' = requests t ++ repeat (userQuery d) (List.length pre) ++ [userQuery d]
  /\ delays t' = delays t ++ backoffs w 0 (draws t) (List.length pre)
  /\ (pre = [] -> requests t' = requests t ++ [userQuery d] /\ delays t' = delays t).
Proof.
  intros L T K N4 N5 Sc.
  assert (retryable r = false) as R.
  { unfold retryable. apply orb_false_iff. split.
    - apply Z.eqb_neq, N4.
    - apply Z.leb_gt, N5. }
  rewrite (rejected_after JSON_parse w d t pre r L T K R Sc).
  unfold requested, retried. simpl. rewrite <- app_assoc. repeat split.
  - subst pre. reflexivity.
  - subst pre. simpl. apply app_nil_r.
Qed.

(** A 404 on the first attempt. *)
Lemma terminal_status_404 :
  let w := Sample.answering [Sample.bare 404] Sample.half in
  let '(res, t') :=
    getNutritionalInfo Sample.parse_eggs w (lit "toast") no_trace in
  res = Threw (ApiError [] 404)
  /\ requests t' = [userQuery (lit "toast")]
  /\ delays t' = [].
Proof.
  pose proof
    (terminal_status_fails_at_once Sample.parse_eggs
       (Sample.answering [Sample.bare 404] Sample.half)
       (lit "toast") no_trace [] (Sample.bare 404)) as H.
  specialize (H ltac:(unfold maxAttempts; simpl; lia) (Forall_nil _) eq_refl
                ltac:(discriminate) ltac:(simpl; lia)
                (scripted_answering [Sample.bare 404] Sample.half)).
  cbv zeta.
  destruct (getNutritionalInfo _ _ _ _) as [res t'].
  destruct H as (H1 & _ & _ & H4).
  destruct (H4 eq_refl) as [H2 H3].
  repeat split; assumption.
Defined.

(** The responses 429, 500 and 200 on a fresh trace. *)
Lemma retry_429_500_then_200_sample :
  let rs := [Sample.bare 429; Sample.bare 500; Sample.carrying (lit "{}")] in
  let w := Sample.answering rs Sample.half in
  let '(res, t') :=
    getNutritionalInfo Sample.parse_eggs w (lit "2 eggs") no_trace in
  res = Returned (Some Sample.eggs) /\ List.length (delays t') = 2%nat.
Proof.
  pose proof
    (retry_429_500_then_200 Sample.parse_eggs
       (Sample.answering
          [Sample.bare 429; Sample.bare 500; Sample.carrying (lit "{}")]
          Sample.half)
       (lit "2 eggs") no_trace
       (Sample.bare 429) (Sample.bare 500) (Sample.carrying (lit "{}"))
       _ (lit "{}") (Some Sample.eggs)
       eq_refl eq_refl eq_refl eq_refl eq_refl eq_refl
       (scripted_answering _ Sample.half)) as H.
  cbv zeta.
  destruct (getNutritionalInfo _ _ _ _) as [res t'].
  destruct H as (H1 & H2 & H3).
  split; [exact H1|rewrite H3; reflexivity].
Defined.

(** * The ledger *)

(** C1.  Whatever events the page has handled since it was loaded (meals
    logged through [handleLogMeal], meals removed, the log cleared or the
    clearing declined, the goal changed), the reduce of [updateDashboard]
    returns, without throwing, the field-wise sum over the summaries of the
    meals that are in [dailyLog] at that moment, a field that is missing or
    NaN counting as 0; when every summary holds its four numbers this is the
    plain sum of each field.  The totals are a function of the present log,
    so a meal that was removed or cleared contributes nothing. *)
Theorem totals_are_the_sum_of_the_present_meals
  (JSON_parse : jsstring -> option (option nutrition)) (w : world)
  (evs : list event) (t : trace) :
  let st := fst (run JSON_parse w evs initial t) in
  computeTotals st = Returned (fieldwise_sum (dailyLog st))
  /\ (complete (dailyLog st) ->
      computeTotals st = Returned (plain_fieldwise_sum (dailyLog st))).
Proof.
  intro st.
  assert (computeTotals st = Returned (fieldwise_sum (dailyLog st))) as E.
  { apply computeTotals_summarised. apply run_summarised. constructor. }
  split; [exact E|].
  intro C. rewrite E, (fieldwise_sum_plain _ C). reflexivity.
Qed.

(** Two eggs and toast logged, then the toast removed. *)
Lemma totals_after_log_log_remove :
  let w :=
    Sample.answering [Sample.carrying (lit "{}"); Sample.carrying (lit "{}")]
      Sample.half in
  let st :=
    fst (run Sample.parse_eggs w
           [LogMeal (lit "2 eggs"); LogMeal (lit "2 more eggs");
            RemoveMeal (lit "1")]
           initial no_trace) in
  dailyLog st = [Sample.logged "2 eggs" Sample.eggs]
  /\ computeTotals st = Returned (plain_fieldwise_sum (dailyLog st)).
Proof.
  split; [reflexivity|].
  apply (totals_are_the_sum_of_the_present_meals Sample.parse_eggs
           (Sample.answering
              [Sample.carrying (lit "{}"); Sample.carrying (lit "{}")]
              Sample.half)
           [LogMeal (lit "2 eggs"); LogMeal (lit "2 more eggs");
            RemoveMeal (lit "1")]
           no_trace).
  repeat constructor.
Defined.







(** C8, as the code has it.  [handleClearLog] asks for confirmation first.
    When the user confirms, the log is emptied whatever it held, the goal is
    kept, and the totals computed afterwards are all zero; when the user
    declines, nothing changes. *)
Theorem clear_empties_once_confirmed (st : state) :
  dailyLog (handleClearLog true st) = []
  /\ calorieGoal (handleClearLog true st) = calorieGoal st
  /\ computeTotals (handleClearLog true st)
     = Returned {| calories := of_Z 0; protein := of_Z 0;
                   carbs := of_Z 0; fat := of_Z 0 |}
  /\ handleClearLog false st = st.
Proof. repeat split. Qed.

(** C8 as stated fails: a declined confirmation leaves a logged meal in
    place, and the totals computed afterwards are not zero. *)
Lemma clear_declined_keeps_the_log :
  let st := {| dailyLog := [Sample.logged "2 eggs" Sample.eggs];
               calorieGoal := of_Z 2000 |} in
  dailyLog (handleClearLog false st) <> []
  /\ exists tot,
       computeTotals (handleClearLog false st) = Returned tot
       /\ gt (calories tot) (of_Z 0) = true.
Proof.
  split; [discriminate|]. eexists. split; reflexivity.
Qed.

(** C3, as the code has it.  [handleRemoveMeal] splices the log at the
    index it parses and never raises an error.  For an index inside the log
    the entry there is removed: the log is one shorter, the entries before
    it stay and every later entry moves down one position.  For an index at
    or beyond the length the log is unchanged.  A negative index counts
    from the end of the log: the entry at [max(length + index, 0)] is
    removed.  The goal is never touched. *)
Theorem remove_meal_splices (index : jsstring) (i : Z) (st : state) :
  parseInt10 index = of_Z i ->
  let log := dailyLog st in
  let log' := dailyLog (handleRemoveMeal index st) in
  let len := Z.of_nat (List.length log) in
  calorieGoal (handleRemoveMeal index st) = calorieGoal st
  /\ (0 <= i < len ->
      List.length log' = (List.length log - 1)%nat
      /\ forall k, nth_error log' k =
                   if Z.of_nat k <? i then nth_error log k
                   else nth_error log (S k))
  /\ (len <= i -> log' = log)
  /\ (i < 0 -> log' = without (Z.to_nat (Z.max (len + i) 0)) log).
Proof.
  intros P log log' len.
  assert (log' = without (Z.to_nat (actual_start (of_Z i) len)) log) as E.
  { unfold log', handleRemoveMeal. cbn [dailyLog]. rewrite P.
    apply splice_one. apply actual_start_bounds. lia. }
  rewrite actual_start_of_Z in E.
  split; [reflexivity|]. split; [|split].
  - intros [L U]. destruct (Z.ltb_spec i 0) as [|_]; [lia|].
    rewrite Z.min_l in E by lia. rewrite E. split.
    + apply without_length. unfold len in U. lia.
    + intro k. rewrite without_nth_error.
      destruct (Nat.ltb_spec k (Z.to_nat i)), (Z.ltb_spec (Z.of_nat k) i);
        try reflexivity; lia.
  - intro L. destruct (Z.ltb_spec i 0) as [|_]; [lia|].
    rewrite Z.min_r in E by lia. rewrite E.
    apply without_beyond. unfold len. lia.
  - intro L. destruct (Z.ltb_spec i 0) as [_|]; [exact E|lia].
Qed.

(** Removing index 0 of a log of two meals. *)
Lemma remove_meal_first_of_two :
  dailyLog
    (handleRemoveMeal (lit "0")
       {| dailyLog := [Sample.logged "2 eggs" Sample.eggs;
                       Sample.logged "feast" Sample.feast];
          calorieGoal := of_Z 2000 |})
  = [Sample.logged "feast" Sample.feast]
  /\ List.length
       (dailyLog
          (handleRemoveMeal (lit "0")
             {| dailyLog := [Sample.logged "2 eggs" Sample.eggs;
                             Sample.logged "feast" Sample.feast];
                calorieGoal := of_Z 2000 |})) = 1%nat.
Proof.
  split; [reflexivity|].
  destruct
    (remove_meal_splices (lit "0") 0
       {| dailyLog := [Sample.logged "2 eggs" Sample.eggs;
                       Sample.logged "feast" Sample.feast];
          calorieGoal := of_Z 2000 |}
       eq_refl) as (_ & H & _ & _).
  destruct (H ltac:(simpl; lia)) as [L _]. exact L.
Defined.

(** C3 as stated fails: the index -1 is outside the log, yet the handler
    raises nothing and removes the last meal. *)
Lemma remove_meal_negative_index_removes :
  let st := {| dailyLog := [Sample.logged "2 eggs" Sample.eggs;
                            Sample.logged "feast" Sample.feast];
               calorieGoal := of_Z 2000 |} in
  parseInt10 (lit "-1") = of_Z (-1)
  /\ dailyLog (handleRemoveMeal (lit "-1") st)
     = [Sample.logged "2 eggs" Sample.eggs]
  /\ dailyLog (handleRemoveMeal (lit "-1") st) <> dailyLog st.
Proof.
  split; [reflexivity|]. split; [reflexivity|]. discriminate.
Qed.




(** * The log-meal handler *)

(** C10.  [handleLogMeal] appends a meal, made of the trimmed description
    and the analysis, exactly when the description is not empty after
    trimming and [getNutritionalInfo] returns a value that has both a
    [meal_summary] and a [food_items]; in every other case the state is
    unchanged.  A description that is empty after trimming causes no request
    at all.  The goal is never touched. *)
Theorem meal_logged_iff_analysis_complete
  (JSON_parse : jsstring -> option (option nutrition)) (w : world)
  (value : jsstring) (st : state) (t : trace) :
  let st' := fst (handleLogMeal JSON_parse w value st t) in
  let t' := snd (handleLogMeal JSON_parse w value st t) in
  calorieGoal st' = calorieGoal st
  /\ (forall v, analysed JSON_parse w value t v ->
        dailyLog st' =
        dailyLog st ++ [{| description := trim value; analysis := v |}])
  /\ ((forall v, ~ analysed JSON_parse w value t v) -> st' = st)
  /\ (dailyLog st' <> dailyLog st <-> exists v, analysed JSON_parse w value t v)
  /\ (trim value = [] -> t' = t).
Proof.
  intros st' t'. unfold st', t'. clear st' t'.
  assert (forall l (m : meal), l ++ [m] <> l) as Grow.
  { intros l m E. apply (f_equal (@List.length _)) in E.
    rewrite length_app in E. simpl in E. lia. }
  destruct (handleLogMeal_cases JSON_parse w value st t)
    as [[E ->]|[(N & A & ->)|(a & v & N & G & A & ->)]]; cbn [fst snd].
  - split; [reflexivity|]. split; [|split; [|split]].
    + intros v (N & _). congruence.
    + reflexivity.
    + split; [congruence|]. intros [v (N & _)]. congruence.
    + reflexivity.
  - assert (forall v, ~ analysed JSON_parse w value t v) as No.
    { intros v (_ & G & S & I). apply (A v). rewrite G.
      apply accepted_Some. auto. }
    split; [reflexivity|]. split; [|split; [|split]].
    + intros v H. destruct (No v H).
    + reflexivity.
    + split; [congruence|]. intros [v H]. destruct (No v H).
    + congruence.
  - apply accepted_Some in A. destruct A as (-> & S & I).
    assert (analysed JSON_parse w value t v) as Yes by (repeat split; assumption).
    split; [reflexivity|]. split; [|split; [|split]].
    + intros v' (_ & G' & _). rewrite G in G'. inversion G'; subst v'. reflexivity.
    + intro No. destruct (No v Yes).
    + split; [exists v; exact Yes|]. intros _. cbn [dailyLog]. apply Grow.
    + congruence.
Qed.

(** A description with spaces around it and an analysis that has both
    fields. *)
Lemma meal_logged_sample :
  let w := Sample.answering [Sample.carrying (lit "{}")] Sample.half in
  dailyLog
    (fst (handleLogMeal Sample.parse_eggs w (lit " 2 eggs ") initial no_trace))
  = [Sample.logged "2 eggs" Sample.eggs].
Proof.
  destruct
    (meal_logged_iff_analysis_complete Sample.parse_eggs
       (Sample.answering [Sample.carrying (lit "{}")] Sample.half)
       (lit " 2 eggs ") initial no_trace) as (_ & H & _).
  apply (H Sample.eggs).
  unfold analysed. split; [discriminate|]. split; [reflexivity|].
  split; eexists; reflexivity.
Defined.

(** * Further properties of the analysis client *)

Section LoopShape.

Variable w : world.
Variable query : jsstring.

(** One iteration in which [fetch] rejects: a request, and the error. *)
Lemma retry_loop_rejected fuel attempt last t :
  (attempt < maxAttempts)%nat ->
  fetch_outcome w (List.length (requests t)) = None ->
  retry_loop w (S fuel) query attempt last t =
  (Threw NetworkError, requested query t).
Proof.
  intros A F. simpl. apply Nat.ltb_lt in A. rewrite A.
  unfold bind, fetch. rewrite F. reflexivity.
Qed.

Lemma scripted_nil n0 : scripted w n0 [].
Proof. intros [|i] r E; discriminate E. Qed.

Lemma scripted_cons n0 r rs :
  fetch_outcome w n0 = Some r -> scripted w (S n0) rs -> scripted w n0 (r :: rs).
Proof.
  intros F Sc [|i] r' E.
  - simpl in E. inversion E; subst. rewrite Nat.add_0_r. exact F.
  - rewrite Nat.add_succ_r. apply (Sc i r' E).
Qed.

(** Every way the loop can end: after a run of transient failures it
    either has used all its attempts, or it made one more request that
    succeeded, was refused for good, or was rejected by the network. *)
Lemma retry_loop_shape fuel :
  forall attempt last t res t',
    (attempt + fuel = maxAttempts)%nat ->
    retry_loop w fuel query attempt last t = (res, t') ->
    exists pre,
      Forall (fun r => transient r = true) pre
      /\ scripted w (List.length (requests t)) pre
      /\ ((List.length pre = fuel
           /\ t' = retried w query attempt fuel t
           /\ res = Returned (List.last (map Some pre) last))
          \/ ((List.length pre < fuel)%nat
              /\ t' = requested query (retried w query attempt (List.length pre) t)
              /\ ((exists r,
                     fetch_outcome w (List.length (requests t) + List.length pre) = Some r
                     /\ ok r = true /\ res = Returned (Some r))
                  \/ (exists r,
                        fetch_outcome w (List.length (requests t) + List.length pre) = Some r
                        /\ ok r = false /\ retryable r = false
                        /\ res = Threw (ApiError (statusText r) (status r)))
                  \/ (fetch_outcome w (List.length (requests t) + List.length pre) = None
                      /\ res = Threw NetworkError)))).
Proof.
  induction fuel as [|fuel IH]; intros attempt last t res t' A H.
  - simpl in H. inversion H; subst. exists []. split; [constructor|].
    split; [apply scripted_nil|]. left.
    rewrite retried_zero. repeat split.
  - assert (attempt < maxAttempts)%nat as L by lia.
    destruct (fetch_outcome w (List.length (requests t))) as [r|] eqn:F.
    + destruct (ok r) eqn:K.
      * rewrite (retry_loop_ok w query fuel attempt last t r L F K) in H.
        inversion H; subst. exists []. split; [constructor|].
        split; [apply scripted_nil|]. right. simpl List.length.
        rewrite retried_zero, Nat.add_0_r. split; [lia|]. split; [reflexivity|].
        left. exists r. repeat split; assumption.
      * destruct (retryable r) eqn:R.
        -- assert (transient r = true) as T by (unfold transient; rewrite K, R; reflexivity).
           rewrite (retry_loop_transient w query fuel attempt last t r L F T) in H.
           destruct (IH (S attempt) (Some r) _ res t' ltac:(lia) H)
             as (pre & Tp & Sc & C).
           assert (List.length (requests (retried w query attempt 1 t))
                   = S (List.length (requests t))) as E.
           { rewrite retried_requests. lia. }
           rewrite E in Sc, C.
           exists (r :: pre). split; [constructor; assumption|].
           split; [apply scripted_cons; assumption|].
           simpl List.length. rewrite last_response_cons.
           replace (List.length (requests t) + S (List.length pre))%nat
             with (S (List.length (requests t)) + List.length pre)%nat by lia.
           destruct C as [(C1 & C2 & C3)|(C1 & C2 & C3)].
           ++ left. rewrite retried_succ in C2. repeat split; try assumption. lia.
           ++ right. rewrite retried_succ in C2. repeat split; try assumption. lia.
        -- rewrite (retry_loop_terminal w query fuel attempt last t r L F K R) in H.
           inversion H; subst. exists []. split; [constructor|].
           split; [apply scripted_nil|]. right. simpl List.length.
           rewrite retried_zero, Nat.add_0_r. split; [lia|]. split; [reflexivity|].
           right. left. exists r. repeat split; assumption.
    + rewrite (retry_loop_rejected fuel attempt last t L F) in H.
      inversion H; subst. exists []. split; [constructor|].
      split; [apply scripted_nil|]. right. simpl List.length.
      rewrite retried_zero, Nat.add_0_r. split; [lia|]. split; [reflexivity|].
      right. right. split; [assumption|reflexivity].
Qed.

End LoopShape.

Section ClientShape.

Variable JSON_parse : jsstring -> option (option nutrition).
Variable w : world.

(** The trace of a call is the trace of its loop: nothing after the loop
    touches the environment. *)
Lemma getNutritionalInfo_trace d t :
  snd (getNutritionalInfo JSON_parse w d t) =
  snd (retry_loop w maxAttempts (userQuery d) 0 None t).
Proof.
  rewrite getNutritionalInfo_unfold.
  destruct (retry_loop w maxAttempts (userQuery d) 0 None t) as [[[r|]|e] t'];
    try reflexivity.
  destruct (negb (ok r)); reflexivity.
Qed.

Lemma scripted_snoc n0 pre r :
  scripted w n0 pre ->
  fetch_outcome w (n0 + List.length pre) = Some r ->
  scripted w n0 (pre ++ [r]).
Proof.
  intros Sc F i r' E.
  destruct (Nat.lt_ge_cases i (List.length pre)) as [L|L].
  - rewrite nth_error_app1 in E by exact L. apply (Sc i r' E).
  - rewrite nth_error_app2 in E by exact L.
    destruct (i - List.length pre)%nat as [|j] eqn:J.
    + simpl in E. inversion E; subst r'.
      replace i with (List.length pre) by lia. exact F.
    + destruct j; discriminate E.
Qed.

Lemma last_transient pre (last : option response) r :
  pre <> [] ->
  Forall (fun r' => transient r' = true) pre ->
  List.last (map Some pre) last = Some r ->
  transient r = true.
Proof.
  intros Ne T E.
  destruct (rev pre) as [|x rest] eqn:R.
  { apply (f_equal (@rev _)) in R. rewrite rev_involutive in R. contradiction. }
  assert (pre = rev rest ++ [x]) as P.
  { rewrite <- (rev_involutive pre), R. reflexivity. }
  subst pre. rewrite map_app in E. cbn [map] in E. rewrite last_last in E.
  inversion E; subst x.
  apply Forall_app in T. destruct T as [_ T]. inversion T; assumption.
Qed.

Lemma last_map_Some {A : Type} (l : list A) (d : A) :
  exists x, List.last (map Some l) (Some d) = Some x.
Proof.
  revert d. induction l as [|a l IH]; intro d.
  - exists d. reflexivity.
  - destruct l as [|b l].
    + exists a. reflexivity.
    + apply (IH d).
Qed.

End ClientShape.

(** The counts of one call: between one and five requests with the same
    query, a delay after each request but the last, and after the last one
    only when all five attempts failed. *)
Lemma call_counts
  (JSON_parse : jsstring -> option (option nutrition)) (w : world)
  (d : jsstring) (t : trace) :
  let '(res, t') := getNutritionalInfo JSON_parse w d t in
  exists k j,
    requests t' = requests t ++ repeat (userQuery d) k
    /\ delays t' = delays t ++ backoffs w 0 (draws t) j
    /\ draws t' = (draws t + j)%nat
    /\ (1 <= k <= 5)%nat
    /\ (j = (k - 1)%nat
        \/ (j = 5%nat /\ k = 5%nat /\ res = Threw (RequestFailed 5))).
Proof.
  pose proof (getNutritionalInfo_trace JSON_parse w d t) as Tr.
  pose proof (getNutritionalInfo_unfold JSON_parse w d t) as U.
  destruct (getNutritionalInfo JSON_parse w d t) as [res t'].
  destruct (retry_loop w maxAttempts (userQuery d) 0 None t) as [lres lt] eqn:L.
  simpl in Tr. subst lt.
  destruct (retry_loop_shape w (userQuery d) maxAttempts 0 None t lres t' eq_refl L)
    as (pre & T & Sc & [(C1 & C2 & C3)|(C1 & C2 & C3)]).
  - exists 5%nat, 5%nat. subst t'. unfold retried, maxAttempts.
    cbn [requests delays draws].
    repeat split; try lia. right. repeat split.
    destruct pre as [|r0 pre0] eqn:P; [discriminate C1|]. rewrite <- P in *.
    destruct (List.last (map Some pre) None) as [r|] eqn:E.
    + assert (transient r = true) as Tr.
      { apply (last_transient pre None r); [rewrite P; discriminate|assumption|exact E]. }
      subst lres. apply andb_prop in Tr. destruct Tr as [Tr _].
      rewrite Tr in U. inversion U. reflexivity.
    + exfalso. rewrite P, last_response_cons in E.
      destruct (last_map_Some pre0 r0) as [x X]. congruence.
  - exists (S (List.length pre)), (List.length pre). subst t'.
    unfold requested, retried. cbn [requests delays draws].
    rewrite <- app_assoc, <- repeat_cons.
    unfold maxAttempts in C1.
    split; [reflexivity|]. split; [reflexivity|]. split; [reflexivity|].
    split; [lia|]. left. lia.
Qed.

(** X1.  Whatever the environment answers, one call of
    [getNutritionalInfo] makes at least one and at most five requests, all
    with the same user query, and sleeps once after each request but the
    last; only a call that ends with "API request failed after 5 attempts."
    has slept after its last request too.  It draws one random number per
    delay. *)
Theorem at_most_five_requests
  (JSON_parse : jsstring -> option (option nutrition)) (w : world)
  (d : jsstring) (t : trace) :
  let '(res, t') := getNutritionalInfo JSON_parse w d t in
  exists k j,
    requests t' = requests t ++ repeat (userQuery d) k
    /\ delays t' = delays t ++ backoffs w 0 (draws t) j
    /\ draws t' = (draws t + j)%nat
    /\ (1 <= k <= 5)%nat
    /\ (j = (k - 1)%nat
        \/ (j = 5%nat /\ k = 5%nat /\ res = Threw (RequestFailed 5))).
Proof. exact (call_counts JSON_parse w d t). Qed.

(** X2.  [getNutritionalInfo] returns a value only in one way: after fewer
    than five transient failures a response with a 2xx status arrived, its
    first candidate carried a non-empty text, and the value is what
    [JSON.parse] made of that text.  Together with the converse (the lemma
    [parsed_after]) this says exactly when a call succeeds. *)
Theorem returned_value_was_parsed
  (JSON_parse : jsstring -> option (option nutrition)) (w : world)
  (d : jsstring) (t t' : trace) (v : option nutrition) :
  getNutritionalInfo JSON_parse w d t = (Returned v, t') ->
  exists pre r result txt,
    (List.length pre < 5)%nat
    /\ Forall (fun r' => transient r' = true) pre
    /\ scripted w (List.length (requests t)) (pre ++ [r])
    /\ ok r = true
    /\ body r = Some result
    /\ payload_text result = Some txt
    /\ JSON_parse txt = Some v
    /\ t' = requested (userQuery d) (retried w (userQuery d) 0 (List.length pre) t).
Proof.
  intro H. rewrite getNutritionalInfo_unfold in H.
  destruct (retry_loop w maxAttempts (userQuery d) 0 None t) as [lres lt] eqn:L.
  destruct (retry_loop_shape w (userQuery d) maxAttempts 0 None t lres lt eq_refl L)
    as (pre & T & Sc & [(C1 & C2 & C3)|(C1 & C2 & C3)]).
  - exfalso. subst lres.
    destruct (List.last (map Some pre) None) as [r|] eqn:E; [|discriminate H].
    assert (transient r = true) as Tr.
    { apply (last_transient pre None r); [|assumption|exact E].
      intro P. subst pre. discriminate C1. }
    apply andb_prop in Tr. destruct Tr as [Tr _]. rewrite Tr in H. discriminate H.
  - destruct C3 as [(r & F & K & ->)|[(r & _ & _ & _ & ->)|(_ & ->)]];
      try discriminate H.
    rewrite K in H. cbn [negb] in H. unfold reading_of in H.
    destruct (body r) as [result|] eqn:B; [|discriminate H].
    destruct result as [|c]; [discriminate H|].
    set (result := JsonValue c) in *.
    destruct (payload_text result) as [txt|] eqn:P; [|discriminate H].
    destruct (JSON_parse txt) as [v'|] eqn:J; [|discriminate H].
    inversion H; subst v' lt.
    exists pre, r, result, txt. unfold maxAttempts in C1.
    split; [exact C1|]. split; [exact T|].
    split; [apply scripted_snoc; assumption|].
    repeat split; try assumption; congruence.
Qed.

(** A success on the second request. *)
Lemma returned_value_sample :
  exists (pre : list response) r result txt,
    (List.length pre < 5)%nat
    /\ ok r = true
    /\ body r = Some result
    /\ payload_text result = Some txt
    /\ Sample.parse_eggs txt = Some (Some Sample.eggs).
Proof.
  destruct
    (returned_value_was_parsed Sample.parse_eggs
       (Sample.answering [Sample.bare 503; Sample.carrying (lit "{}")] Sample.half)
       (lit "2 eggs") no_trace
       (requested (userQuery (lit "2 eggs"))
          (retried (Sample.answering [Sample.bare 503; Sample.carrying (lit "{}")]
                      Sample.half)
             (userQuery (lit "2 eggs")) 0 1 no_trace))
       (Some Sample.eggs) eq_refl)
    as (pre & r & result & txt & L & _ & _ & K & B & P & J & _).
  exists pre, r, result, txt. repeat split; assumption.
Defined.

(** X3.  A 2xx response ends the call whatever it contains: after [k]
    retried failures (fewer than five) there are [k + 1] requests and [k]
    delays, and the call returns the parsed text or throws, never asking
    again.  A body that is not JSON and a text that does not parse throw a
    SyntaxError; a body that is JSON null throws a TypeError when its
    [candidates] are read; a body without a non-empty text in its first
    candidate throws "Could not parse the nutritional data ...".  In the
    last two cases [JSON.parse] is not called on any text. *)
Theorem success_status_is_never_retried
  (JSON_parse : jsstring -> option (option nutrition)) (w : world)
  (d : jsstring) (t : trace) (pre : list response) (r : response) :
  (List.length pre < maxAttempts)%nat ->
  Forall (fun r' => transient r' = true) pre ->
  ok r = true ->
  scripted w (List.length (requests t)) (pre ++ [r]) ->
  getNutritionalInfo JSON_parse w d t =
  (reading_of JSON_parse r,
   requested (userQuery d) (retried w (userQuery d) 0 (List.length pre) t))
  /\ (body r = Some JsonNull ->
      forall other_parse,
        fst (getNutritionalInfo other_parse w d t) = Threw TypeError)
  /\ (forall c,
        body r = Some (JsonValue c) -> payload_text (JsonValue c) = None ->
        forall other_parse,
          fst (getNutritionalInfo other_parse w d t) = Threw CouldNotParse).
Proof.
  intros L T K Sc. apply scripted_app in Sc. destruct Sc as [Sc1 Sc2].
  assert (forall parse,
             getNutritionalInfo parse w d t =
             (reading_of parse r,
              requested (userQuery d)
                (retried w (userQuery d) 0 (List.length pre) t))) as G.
  { intro parse. rewrite getNutritionalInfo_unfold.
    rewrite (retry_loop_transients w (userQuery d) pre T);
      [|exact Sc1|lia|unfold maxAttempts in *; lia].
    destruct (maxAttempts - List.length pre)%nat as [|fuel] eqn:E; [lia|].
    rewrite (retry_loop_ok w (userQuery d) fuel _ _ _ r); [|exact L| |exact K].
    - rewrite K. reflexivity.
    - rewrite retried_requests. apply (scripted_head _ _ _ _ Sc2). }
  split; [apply G|]. split.
  - intros B other. rewrite G. unfold reading_of. rewrite B. reflexivity.
  - intros c B P other. rewrite G. unfold reading_of. rewrite B, P. reflexivity.
Qed.

(** A 200 response whose body is JSON null, after one 429. *)
Lemma success_status_sample :
  let empty := {| status := 200; statusText := lit "OK";
                  body := Some JsonNull |} in
  let w := Sample.answering [Sample.bare 429; empty] Sample.half in
  let '(res, t') :=
    getNutritionalInfo Sample.parse_eggs w (lit "toast") no_trace in
  res = Threw TypeError
  /\ List.length (requests t') = 2%nat
  /\ List.length (delays t') = 1%nat.
Proof.
  intros empty w.
  destruct
    (success_status_is_never_retried Sample.parse_eggs w (lit "toast")
       no_trace [Sample.bare 429] empty
       ltac:(unfold maxAttempts; simpl; lia)
       ltac:(repeat constructor) eq_refl
       (scripted_answering [Sample.bare 429; empty] Sample.half))
    as [G _].
  rewrite G. repeat split.
Defined.

(** X4.  A request the network rejects is not retried: after [k] retried
    failures (fewer than five) a rejected [fetch] ends the call with that
    error after [k + 1] requests and [k] delays. *)
Theorem network_failure_is_not_retried
  (JSON_parse : jsstring -> option (option nutrition)) (w : world)
  (d : jsstring) (t : trace) (pre : list response) :
  (List.length pre < maxAttempts)%nat ->
  Forall (fun r' => transient r' = true) pre ->
  scripted w (List.length (requests t)) pre ->
  fetch_outcome w (List.length (requests t) + List.length pre) = None ->
  getNutritionalInfo JSON_parse w d t =
  (Threw NetworkError,
   requested (userQuery d) (retried w (userQuery d) 0 (List.length pre) t)).
Proof.
  intros L T Sc F. rewrite getNutritionalInfo_unfold.
  rewrite (retry_loop_transients w (userQuery d) pre T);
    [|exact Sc|lia|unfold maxAttempts in *; lia].
  destruct (maxAttempts - List.length pre)%nat as [|fuel] eqn:E; [lia|].
  rewrite (retry_loop_rejected w (userQuery d) fuel); [reflexivity|exact L|].
  rewrite retried_requests. exact F.
Qed.

(** The network fails on the second request, after a 500. *)
Lemma network_failure_sample :
  let w := Sample.answering [Sample.bare 500] Sample.half in
  let '(res, t') :=
    getNutritionalInfo Sample.parse_eggs w (lit "toast") no_trace in
  res = Threw NetworkError
  /\ List.length (requests t') = 2%nat
  /\ List.length (delays t') = 1%nat.
Proof.
  intro w.
  rewrite
    (network_failure_is_not_retried Sample.parse_eggs w (lit "toast")
       no_trace [Sample.bare 500]
       ltac:(unfold maxAttempts; simpl; lia)
       ltac:(repeat constructor)
       (scripted_answering [Sample.bare 500] Sample.half)
       eq_refl).
  repeat split.
Defined.

(** * The backoff delays *)

Lemma backoff_value (i : nat) (x : Qc) :
  backoff i x =
  Fin (Q2Qc (inject_Z (2 ^ Z.of_nat i)) * Q2Qc (inject_Z 1000)
       + x * Q2Qc (inject_Z 1000))%Qc.
Proof. reflexivity. Qed.

Lemma pow2_at_least_one (i : nat) : (1 <= inject_Z (2 ^ Z.of_nat i))%Q.
Proof.
  change 1%Q with (inject_Z 1). rewrite <- Zle_Qle.
  assert (0 < 2 ^ Z.of_nat i) by (apply Z.pow_pos_nonneg; lia). lia.
Qed.

Lemma pow2_doubles (i : nat) :
  (inject_Z (2 ^ Z.of_nat (S i)) == 2 * inject_Z (2 ^ Z.of_nat i))%Q.
Proof.
  rewrite Nat2Z.inj_succ, Z.pow_succ_r by lia.
  rewrite inject_Z_mult. reflexivity.
Qed.

(** With a draw in [[0, 1)] the delay after attempt [i] is at least
    [2^i] seconds and at most [2^i + 1] seconds. *)
Lemma backoff_in_window (i : nat) (x : Qc) :
  (Q2Qc 0 <= x)%Qc -> (x < Q2Qc 1)%Qc -> in_backoff_window i (backoff i x).
Proof.
  intros L U. rewrite backoff_value. unfold in_backoff_window.
  split; [reflexivity|]. unfold of_Z. cbn [gt]. split.
  - apply Qc_ltb_ge. unfold Qcle in *. cbn [this Q2Qc Qcplus Qcmult] in *.
    rewrite !Qred_correct in *. rewrite inject_Z_mult.
    pose proof (pow2_at_least_one i).
    change (inject_Z 1000) with (1000 # 1)%Q. change (inject_Z 0) with 0%Q in L.
    nra.
  - apply Qc_ltb_ge. unfold Qclt, Qcle in *. cbn [this Q2Qc Qcplus Qcmult] in *.
    rewrite !Qred_correct in *. rewrite inject_Z_plus, inject_Z_mult.
    pose proof (pow2_at_least_one i).
    change (inject_Z 1000) with (1000 # 1)%Q. change (inject_Z 1) with 1%Q in U.
    nra.
Qed.

(** No delay is longer than the next one. *)
Lemma backoff_grows (i : nat) (x y : Qc) :
  (x < Q2Qc 1)%Qc -> (Q2Qc 0 <= y)%Qc ->
  gt (backoff i x) (backoff (S i) y) = false.
Proof.
  intros U L. rewrite !backoff_value. cbn [gt]. apply Qc_ltb_ge.
  unfold Qclt, Qcle in *. cbn [this Q2Qc Qcplus Qcmult] in *.
  rewrite !Qred_correct in *. rewrite pow2_doubles.
  pose proof (pow2_at_least_one i).
  change (inject_Z 1000) with (1000 # 1)%Q.
  change (inject_Z 1) with 1%Q in U. change (inject_Z 0) with 0%Q in L.
  nra.
Qed.

Lemma backoffs_nth (w : world) (attempt d k i : nat) (x : number) :
  nth_error (backoffs w attempt d k) i = Some x ->
  (i < k)%nat /\ x = backoff (attempt + i) (random_draw w (d + i)).
Proof.
  revert attempt d i. induction k as [|k IH]; intros attempt d [|i] E;
    simpl in E; try discriminate E.
  - inversion E. rewrite !Nat.add_0_r. split; [lia|reflexivity].
  - destruct (IH _ _ _ E) as [L ->]. rewrite !Nat.add_succ_r. split; [lia|reflexivity].
Qed.

(** The sum of [k] consecutive delays on top of [s]: at most
    [(2^(a+k) - 2^a + k)] seconds more. *)
Lemma backoffs_total (w : world) (k : nat) :
  unit_draws w ->
  forall (a d : nat) (s : Qc),
  exists s' : Qc,
    fold_left add (backoffs w a d k) (Fin s) = Fin s'
    /\ (s' <= s + (inject_Z (2 ^ Z.of_nat (a + k)) - inject_Z (2 ^ Z.of_nat a))
                  * (1000 # 1)
             + inject_Z (Z.of_nat k) * (1000 # 1))%Q.
Proof.
  intro U. induction k as [|k IH]; intros a d s.
  - exists s. split; [reflexivity|]. rewrite Nat.add_0_r. simpl inject_Z.
    change (inject_Z 0) with 0%Q. lra.
  - cbn [backoffs fold_left]. rewrite backoff_value. cbn [add].
    destruct (IH (S a) (S d)
                (s + (Q2Qc (inject_Z (2 ^ Z.of_nat a)) * Q2Qc (inject_Z 1000)
                      + random_draw w d * Q2Qc (inject_Z 1000)))%Qc)
      as [s' [E B]].
    exists s'. split; [exact E|].
    destruct (U d) as [_ U1]. unfold Qclt in U1.
    cbn [this Q2Qc Qcplus Qcmult] in *. rewrite !Qred_correct in *.
    rewrite Nat.add_succ_r. rewrite Nat.add_succ_l in B.
    rewrite (pow2_doubles a) in B.
    assert (inject_Z (Z.of_nat (S k)) == inject_Z (Z.of_nat k) + 1)%Q as K.
    { rewrite Nat2Z.inj_succ, <- Z.add_1_r, inject_Z_plus. reflexivity. }
    rewrite K.
    pose proof (pow2_at_least_one a).
    change (inject_Z 1000) with (1000 # 1)%Q in B.
    change (inject_Z 1) with 1%Q in U1.
    set (top := inject_Z (2 ^ Z.of_nat (S (a + k)))) in *.
    set (low := inject_Z (2 ^ Z.of_nat a)) in *.
    set (n := inject_Z (Z.of_nat k)) in *.
    set (x := this (random_draw w d)) in *.
    lra.
Qed.

Lemma pow2_small (j : nat) :
  (j <= 5)%nat -> (inject_Z (2 ^ Z.of_nat j) <= 32)%Q.
Proof.
  intro L. change 32%Q with (inject_Z 32). rewrite <- Zle_Qle.
  change 32 with (2 ^ 5). apply Z.pow_le_mono_r; lia.
Qed.

(** X5.  The delays of one call form an exponential backoff.  With draws
    of [Math.random] in [[0, 1)], the call sleeps at most five times; its
    i-th delay (from 0) is at least [2^i] seconds and at most [2^i + 1]
    seconds, so no delay is longer than the next one; and all delays of the
    call add up to at most 36 seconds. *)
Theorem delays_back_off
  (JSON_parse : jsstring -> option (option nutrition)) (w : world)
  (d : jsstring) (t : trace) :
  unit_draws w ->
  exists ds,
    delays (snd (getNutritionalInfo JSON_parse w d t)) = delays t ++ ds
    /\ (List.length ds <= 5)%nat
    /\ (forall i x, nth_error ds i = Some x -> in_backoff_window i x)
    /\ (forall i x y,
          nth_error ds i = Some x -> nth_error ds (S i) = Some y ->
          gt x y = false)
    /\ gt (total_delay ds) (of_Z 36000) = false.
Proof.
  intro U.
  pose proof (call_counts JSON_parse w d t) as H.
  destruct (getNutritionalInfo JSON_parse w d t) as [res t'].
  destruct H as (k & j & _ & D & _ & K & J). cbn [snd].
  assert (j <= 5)%nat as J5 by (destruct J as [->|[-> _]]; lia).
  exists (backoffs w 0 (draws t) j). split; [exact D|].
  split; [rewrite backoffs_length; exact J5|]. split; [|split].
  - intros i x E. apply backoffs_nth in E. destruct E as [_ ->].
    destruct (U (draws t + i)%nat). apply backoff_in_window; assumption.
  - intros i x y Ex Ey. apply backoffs_nth in Ex, Ey.
    destruct Ex as [_ ->]. destruct Ey as [_ ->]. cbn [Nat.add].
    rewrite Nat.add_succ_r.
    destruct (U (draws t + i)%nat) as [_ Ux].
    destruct (U (S (draws t + i))) as [Ly _].
    apply backoff_grows; assumption.
  - unfold total_delay.
    destruct (backoffs_total w j U 0%nat (draws t) (Q2Qc (inject_Z 0)))
      as [s' [E B]].
    unfold of_Z at 1. rewrite E. unfold of_Z. cbn [gt]. apply Qc_ltb_ge.
    unfold Qcle. cbn [this Q2Qc] in *. rewrite !Qred_correct in *.
    pose proof (pow2_small j J5) as P. cbn [Nat.add] in B.
    assert (inject_Z (Z.of_nat j) <= 5)%Q as Q5.
    { change 5%Q with (inject_Z 5). rewrite <- Zle_Qle. lia. }
    change (inject_Z (2 ^ Z.of_nat 0)) with 1%Q in B.
    change (inject_Z 0) with 0%Q in B.
    change (inject_Z 36000) with (36000 # 1)%Q.
    lra.
Qed.

(** Five 503 responses with every draw at one half. *)
Lemma delays_sample :
  exists ds,
    delays
      (snd (getNutritionalInfo Sample.parse_eggs
              (Sample.always (Sample.bare 503) (fun _ => Sample.half))
              (lit "toast") no_trace)) = ds
    /\ List.length ds = 5%nat
    /\ gt (total_delay ds) (of_Z 36000) = false.
Proof.
  assert (unit_draws (Sample.always (Sample.bare 503) (fun _ => Sample.half))) as U.
  { intro n. split; reflexivity || discriminate. }
  destruct
    (delays_back_off Sample.parse_eggs
       (Sample.always (Sample.bare 503) (fun _ => Sample.half))
       (lit "toast") no_trace U)
    as (ds & D & _ & _ & _ & S).
  exists ds. split; [exact D|]. split; [|exact S].
  change (delays no_trace ++ ds) with ds in D. rewrite <- D. reflexivity.
Defined.

(** * Further properties of the ledger *)

Lemma trimEnd_split (s : jsstring) :
  exists ws, all_whitespace ws /\ s = trimEnd s ++ ws.
Proof.
  destruct (trimStart_split (rev s)) as [ws [W E]].
  exists (rev ws). split; [apply Forall_rev, W|].
  unfold trimEnd. rewrite <- rev_app_distr, <- E, rev_involutive. reflexivity.
Qed.

(** What [trim] leaves, when it leaves something, neither starts nor ends
    with white space. *)
Lemma trim_well_trimmed (s : jsstring) : trim s <> [] -> well_trimmed (trim s).
Proof.
  intro Ne. split; [exact Ne|]. unfold trim in *. split.
  - destruct (trimEnd_split (trimStart s)) as [ws [_ E]].
    destruct (trimEnd (trimStart s)) as [|c r]; [congruence|].
    simpl. apply (trimStart_head s c (r ++ ws)). exact E.
  - unfold trimEnd in *.
    destruct (trimStart (rev (trimStart s))) as [|c r] eqn:E; [simpl in Ne; congruence|].
    simpl. rewrite last_last. apply (trimStart_head _ _ _ E).
Qed.

Lemma Forall_splice {A : Type} (P : A -> Prop) (l : list A) start count :
  Forall P l -> Forall P (splice l start count).
Proof.
  intro H. unfold splice. apply Forall_app. split.
  - rewrite <- (firstn_skipn (Z.to_nat (actual_start start (Z.of_nat (List.length l)))) l) in H.
    apply Forall_app in H. apply H.
  - set (n := Z.to_nat _). rewrite <- (firstn_skipn n l) in H.
    apply Forall_app in H. apply H.
Qed.

Lemma splice_length {A : Type} (l : list A) start :
  (List.length l - 1 <= List.length (splice l start 1) <= List.length l)%nat.
Proof.
  rewrite splice_one by (apply actual_start_bounds; lia).
  set (n := Z.to_nat _).
  destruct (Nat.lt_ge_cases n (List.length l)) as [L|L].
  - rewrite without_length by exact L. lia.
  - rewrite without_beyond by exact L. lia.
Qed.

Section Reachable.

Variable JSON_parse : jsstring -> option (option nutrition).
Variable w : world.

Lemma handleLogMeal_sound value st t :
  sound st -> sound (fst (handleLogMeal JSON_parse w value st t)).
Proof.
  intros [F G].
  destruct (handleLogMeal_cases JSON_parse w value st t)
    as [[_ ->]|[(_ & _ & ->)|(a & v & N & _ & A & ->)]];
    try (split; assumption).
  split; [|exact G]. cbn [fst dailyLog]. apply Forall_app. split; [exact F|].
  apply accepted_Some in A. destruct A as (_ & [s Hs] & [items Hi]).
  constructor; [|constructor]. unfold well_formed. cbn [description analysis].
  split; [apply trim_well_trimmed, N|]. split; congruence.
Qed.

Lemma dispatch_sound ev st t :
  sound st -> sound (fst (dispatch JSON_parse w ev st t)).
Proof.
  intro S. destruct ev as [value|value|confirmed|index]; cbn [dispatch fst].
  - apply handleLogMeal_sound, S.
  - destruct S as [F _]. split; [exact F|apply handleGoalChange_kind].
  - destruct confirmed; [|exact S]. destruct S as [_ G]. split; [constructor|exact G].
  - destruct S as [F G]. split; [|exact G]. apply Forall_splice, F.
Qed.

Lemma run_sound evs :
  forall st t, sound st -> sound (fst (run JSON_parse w evs st t)).
Proof.
  induction evs as [|ev evs IH]; intros st t S; simpl; [exact S|].
  pose proof (dispatch_sound ev st t S) as D.
  destruct (dispatch JSON_parse w ev st t) as [st' t']. apply IH, D.
Qed.

(** One submission: the log grows by at most one meal and keeps what it
    had; at most five requests and five delays are added to the trace. *)
Lemma handleLogMeal_bounds value st t :
  let '(st', t') := handleLogMeal JSON_parse w value st t in
  (List.length (dailyLog st) <= List.length (dailyLog st')
   <= S (List.length (dailyLog st)))%nat
  /\ (List.length (requests t) <= List.length (requests t')
      <= List.length (requests t) + 5)%nat
  /\ (List.length (delays t) <= List.length (delays t')
      <= List.length (delays t) + 5)%nat.
Proof.
  assert (let t' := snd (getNutritionalInfo JSON_parse w (trim value) t) in
          (List.length (requests t) <= List.length (requests t')
           <= List.length (requests t) + 5)%nat
          /\ (List.length (delays t) <= List.length (delays t')
              <= List.length (delays t) + 5)%nat) as B.
  { pose proof (call_counts JSON_parse w (trim value) t) as C.
    destruct (getNutritionalInfo JSON_parse w (trim value) t) as [res t'].
    cbv zeta. cbn [snd]. destruct C as (k & j & -> & -> & _ & K & J).
    rewrite !length_app, repeat_length, backoffs_length.
    destruct J as [->|[-> _]]; lia. }
  destruct (handleLogMeal_cases JSON_parse w value st t)
    as [[_ ->]|[(_ & _ & ->)|(a & v & _ & _ & _ & ->)]].
  - repeat split; lia.
  - split; [lia|exact B].
  - split; [|exact B]. cbn [dailyLog]. rewrite length_app. simpl. lia.
Qed.

Lemma run_bounds evs :
  forall st t,
    let '(st', t') := run JSON_parse w evs st t in
    (List.length (dailyLog st') <= List.length (dailyLog st) + submissions evs)%nat
    /\ (List.length (requests t) <= List.length (requests t')
        <= List.length (requests t) + 5 * submissions evs)%nat
    /\ (List.length (delays t) <= List.length (delays t')
        <= List.length (delays t) + 5 * submissions evs)%nat.
Proof.
  induction evs as [|ev evs IH]; intros st t; [simpl; lia|].
  cbn [run].
  destruct ev as [value|value|confirmed|index]; cbn [dispatch submissions].
  - pose proof (handleLogMeal_bounds value st t) as B.
    destruct (handleLogMeal JSON_parse w value st t) as [st1 t1].
    specialize (IH st1 t1). destruct (run JSON_parse w evs st1 t1) as [st' t']. lia.
  - specialize (IH (handleGoalChange value st) t).
    destruct (run JSON_parse w evs _ t) as [st' t']. exact IH.
  - specialize (IH (handleClearLog confirmed st) t).
    destruct (run JSON_parse w evs _ t) as [st' t'].
    assert (List.length (dailyLog (handleClearLog confirmed st))
            <= List.length (dailyLog st))%nat
      by (destruct confirmed; simpl; lia).
    lia.
  - specialize (IH (handleRemoveMeal index st) t).
    destruct (run JSON_parse w evs _ t) as [st' t'].
    pose proof (splice_length (dailyLog st) (parseInt10 index)).
    cbn [handleRemoveMeal dailyLog] in IH. lia.
Qed.

End Reachable.

(** X6.  Every state the page reaches from its initial state, whatever the
    events and the environment, is well formed: each logged meal has a
    description that is not empty and neither starts nor ends with white
    space, and an analysis with both a [meal_summary] and a [food_items];
    and the calorie goal is never NaN: it is an integer, or an infinity
    after a numeral too long for a binary64 number. *)
Theorem reachable_states_are_well_formed
  (JSON_parse : jsstring -> option (option nutrition)) (w : world)
  (evs : list event) (t : trace) :
  let st := fst (run JSON_parse w evs initial t) in
  Forall well_formed (dailyLog st)
  /\ ((exists z, calorieGoal st = of_Z z)
      \/ calorieGoal st = PosInf \/ calorieGoal st = NegInf).
Proof.
  apply (run_sound JSON_parse w evs initial t).
  split; [constructor|]. left. exists 2000. reflexivity.
Qed.

(** X7.  Only submissions cost requests.  Over any sequence of events, the
    log grows by at most one meal per [LogMeal] event, and the page sends
    at most five requests and sleeps at most five times per [LogMeal]
    event; goal changes, removals and clearing send nothing. *)
Theorem requests_are_bounded_by_submissions
  (JSON_parse : jsstring -> option (option nutrition)) (w : world)
  (evs : list event) (st : state) (t : trace) :
  let '(st', t') := run JSON_parse w evs st t in
  (List.length (dailyLog st') <= List.length (dailyLog st) + submissions evs)%nat
  /\ (List.length (requests t) <= List.length (requests t')
      <= List.length (requests t) + 5 * submissions evs)%nat
  /\ (List.length (delays t) <= List.length (delays t')
      <= List.length (delays t) + 5 * submissions evs)%nat.
Proof. exact (run_bounds JSON_parse w evs st t). Qed.

(** X8.  Logging adds the meal to the totals.  When the analysis is
    accepted and the totals could be computed before, the totals after
    [handleLogMeal] are the totals before plus, field by field, what the
    summary of the new meal holds (0 for a field that is missing, NaN or
    zero); no other entry changes the sum. *)
Theorem logged_meal_adds_to_totals
  (JSON_parse : jsstring -> option (option nutrition)) (w : world)
  (value : jsstring) (st : state) (t : trace)
  (v : nutrition) (s : summary) (before : totals) :
  analysed JSON_parse w value t v ->
  meal_summary v = Some s ->
  computeTotals st = Returned before ->
  computeTotals (fst (handleLogMeal JSON_parse w value st t)) =
  Returned
    {| calories := add (calories before) (or_else (total_calories s) (of_Z 0));
       protein := add (protein before) (or_else (total_protein_g s) (of_Z 0));
       carbs := add (carbs before) (or_else (total_carbs_g s) (of_Z 0));
       fat := add (fat before) (or_else (total_fat_g s) (of_Z 0)) |}.
Proof.
  intros (N & G & _ & [items Hi]) Hs B.
  assert (accepted (Some v) = Some v) as Acc.
  { apply accepted_Some. eauto. }
  destruct (handleLogMeal_cases JSON_parse w value st t)
    as [[E _]|[(_ & A & _)|(a & v' & _ & G' & A & ->)]].
  - congruence.
  - exfalso. rewrite G in A. apply (A v). exact Acc.
  - rewrite G in G'. inversion G'; subst a. rewrite Acc in A.
    inversion A; subst v'. cbn [fst].
    unfold computeTotals in *. cbn [dailyLog].
    rewrite reduce_app, B. cbn [reduce]. unfold accumulate.
    cbn [analysis]. rewrite Hs. reflexivity.
Qed.

(** Two eggs on top of an empty log. *)
Lemma logged_meal_sample :
  let w := Sample.answering [Sample.carrying (lit "{}")] Sample.half in
  exists tot,
    computeTotals
      (fst (handleLogMeal Sample.parse_eggs w (lit "2 eggs") initial no_trace))
    = Returned tot
    /\ calories tot = add (of_Z 0) (of_Z 140).
Proof.
  intro w. eexists. split.
  - apply (logged_meal_adds_to_totals Sample.parse_eggs w (lit "2 eggs")
             initial no_trace Sample.eggs
             {| total_calories := Some (of_Z 140);
                total_protein_g := Some (of_Z 12);
                total_carbs_g := Some (of_Z 1);
                total_fat_g := Some (of_Z 10) |}
             no_totals).
    + unfold analysed. split; [discriminate|]. split; [reflexivity|].
      split; eexists; reflexivity.
    + reflexivity.
    + reflexivity.
  - reflexivity.
Defined.

(** * The index of a remove button *)

Lemma uint_units_digits (d : Decimal.uint) : all_digits (uint_units d).
Proof. induction d; simpl; constructor; try reflexivity; assumption. Qed.

Lemma uint_units_acc (d : Decimal.uint) :
  forall acc : positive,
    fold_left (fun a c => 10 * a + digit_value c) (uint_units d) (Zpos acc) =
    Zpos (Pos.of_uint_acc d acc).
Proof.
  induction d as [|d IH|d IH|d IH|d IH|d IH|d IH|d IH|d IH|d IH|d IH];
    intro acc; [reflexivity|..];
    cbn [uint_units fold_left Pos.of_uint_acc]; rewrite <- IH;
    apply (f_equal (fold_left _ _));
    match goal with
    | |- context [digit_value ?c] =>
        let v := eval vm_compute in (digit_value c) in
        change (digit_value c) with v
    end; lia.
Qed.

Lemma uint_units_value (d : Decimal.uint) :
  digits_value (uint_units d) = Z.of_N (Pos.of_uint d).
Proof.
  unfold digits_value.
  induction d as [|d IH|d IH|d IH|d IH|d IH|d IH|d IH|d IH|d IH|d IH];
    [reflexivity|exact IH|..];
    cbn [uint_units fold_left Pos.of_uint];
    match goal with
    | |- fold_left _ _ ?a = _ =>
        let p := eval compute in a in change a with p
    end;
    rewrite uint_units_acc; reflexivity.
Qed.

Lemma decimal_not_empty (n : N) : decimal n <> [].
Proof.
  unfold decimal. destruct n as [|p]; [discriminate|].
  simpl. pose proof (DecimalPos.Unsigned.to_uint_nonnil p) as H.
  destruct (Pos.to_uint p); [congruence|..]; discriminate.
Qed.

Lemma decimal_value (n : N) : positional (decimal n) = Z.of_N n.
Proof.
  rewrite <- digits_value_positional. unfold decimal.
  rewrite uint_units_value.
  change (Pos.of_uint (N.to_uint n)) with (N.of_uint (N.to_uint n)).
  rewrite DecimalN.Unsigned.of_to. reflexivity.
Qed.

(** Round trip: [parseInt] reads the decimal digits of a number up to [2^53]
    back as that number. *)
Lemma parseInt10_decimal (n : N) :
  Z.of_N n <= 2 ^ 53 -> parseInt10 (decimal n) = of_Z (Z.of_N n).
Proof.
  intro B.
  rewrite (parseInt10_reads_exactly (decimal n) [] [] (decimal n) []).
  - cbn [signum]. rewrite decimal_value. f_equal. lia.
  - unfold reads_as. split; [simpl; rewrite app_nil_r; reflexivity|].
    split; [constructor|]. split; [left; reflexivity|].
    split; [apply decimal_not_empty|]. split; [apply uint_units_digits|reflexivity].
  - rewrite decimal_value. exact B.
Qed.

Lemma remove_at (i : nat) (st : state) :
  Z.of_nat i < 2 ^ 32 ->
  dailyLog (handleRemoveMeal (decimal (N.of_nat i)) st) =
  without i (dailyLog st).
Proof.
  intro B. cbn [handleRemoveMeal dailyLog].
  rewrite parseInt10_decimal
    by (assert (2 ^ 32 <= 2 ^ 53) by (apply Z.pow_le_mono_r; lia); lia).
  rewrite splice_one by (apply actual_start_bounds; lia).
  rewrite actual_start_of_Z.
  destruct (Z.ltb_spec (Z.of_N (N.of_nat i)) 0) as [|_]; [lia|].
  destruct (Nat.lt_ge_cases i (List.length (dailyLog st))) as [L|L].
  - rewrite Z.min_l by lia. f_equal. lia.
  - rewrite Z.min_r by lia. rewrite Nat2Z.id.
    rewrite !without_beyond by lia. reflexivity.
Qed.

(** X9.  The index survives the round trip through the page.  The template
    of [renderMealLog] writes the position of a meal into the [data-index]
    of its remove button as a decimal numeral; for every position [i] of
    the log (an array index, below [2^32]) [handleRemoveMeal] parses that
    numeral back to [i] and removes exactly the meal at [i]: the log is one
    shorter, the other meals keep their order, the goal is untouched. *)
Theorem rendered_index_removes_its_meal (st : state) (i : nat) :
  (i < List.length (dailyLog st))%nat ->
  Z.of_nat i < 2 ^ 32 ->
  let attr := decimal (N.of_nat i) in
  parseInt10 attr = of_Z (Z.of_nat i)
  /\ dailyLog (handleRemoveMeal attr st) = without i (dailyLog st)
  /\ S (List.length (dailyLog (handleRemoveMeal attr st)))
     = List.length (dailyLog st)
  /\ (forall k, nth_error (dailyLog (handleRemoveMeal attr st)) k =
                if (k <? i)%nat then nth_error (dailyLog st) k
                else nth_error (dailyLog st) (S k))
  /\ calorieGoal (handleRemoveMeal attr st) = calorieGoal st.
Proof.
  intros L B attr. unfold attr.
  split.
  { rewrite parseInt10_decimal
      by (assert (2 ^ 32 <= 2 ^ 53) by (apply Z.pow_le_mono_r; lia); lia).
    f_equal. lia. }
  split; [apply remove_at, B|]. split; [|split; [|reflexivity]].
  - rewrite remove_at, without_length by assumption. lia.
  - intro k. rewrite remove_at by exact B. apply without_nth_error.
Qed.

(** The last position of a log of twelve meals, written "11". *)
Lemma rendered_index_sample :
  let st := {| dailyLog := repeat (Sample.logged "2 eggs" Sample.eggs) 11
                             ++ [Sample.logged "toast" Sample.toast];
               calorieGoal := of_Z 2000 |} in
  dailyLog (handleRemoveMeal (lit "11") st)
  = repeat (Sample.logged "2 eggs" Sample.eggs) 11.
Proof.
  intro st.
  destruct (rendered_index_removes_its_meal st 11
              ltac:(simpl; lia) ltac:(vm_compute; reflexivity))
    as (_ & H & _).
  change (decimal (N.of_nat 11)) with (lit "11") in H.
  rewrite H. reflexivity.
Defined.

(** X10.  Removing the meal that was just logged undoes the logging: after
    an accepted analysis, [handleRemoveMeal] with the index the template
    writes for the new meal (its position, the former length of the log,
    below [2^32]) gives back the state from before the submission. *)
Theorem remove_undoes_log
  (JSON_parse : jsstring -> option (option nutrition)) (w : world)
  (value : jsstring) (st : state) (t : trace) (v : nutrition) :
  analysed JSON_parse w value t v ->
  Z.of_nat (List.length (dailyLog st)) < 2 ^ 32 ->
  let st' := fst (handleLogMeal JSON_parse w value st t) in
  let index := decimal (N.of_nat (List.length (dailyLog st))) in
  handleRemoveMeal index st' = st.
Proof.
  intros (N & G & [s Hs] & [items Hi]) B st' index.
  assert (accepted (Some v) = Some v) as Acc by (apply accepted_Some; eauto).
  assert (dailyLog st' =
          dailyLog st ++ [{| description := trim value; analysis := v |}]
          /\ calorieGoal st' = calorieGoal st) as [D C].
  { unfold st'.
    destruct (handleLogMeal_cases JSON_parse w value st t)
      as [[E _]|[(_ & A & _)|(a & v' & _ & G' & A & ->)]].
    - congruence.
    - exfalso. rewrite G in A. apply (A v). exact Acc.
    - rewrite G in G'. inversion G'; subst a. rewrite Acc in A.
      inversion A; subst v'. split; reflexivity. }
  assert (dailyLog (handleRemoveMeal index st') = dailyLog st) as R.
  { unfold index. rewrite remove_at by exact B. rewrite D.
    rewrite <- without_firstn_skipn.
    rewrite firstn_app, Nat.sub_diag, firstn_all. cbn [firstn].
    rewrite skipn_all2 by (rewrite length_app; simpl; lia).
    rewrite !app_nil_r. reflexivity. }
  transitivity {| dailyLog := dailyLog st; calorieGoal := calorieGoal st |};
    [|destruct st; reflexivity].
  cbn [handleRemoveMeal dailyLog] in R. unfold handleRemoveMeal.
  rewrite R, C. reflexivity.
Qed.

(** Two eggs logged on top of toast, then removed with the index "1". *)
Lemma remove_undoes_log_sample :
  let w := Sample.answering [Sample.carrying (lit "{}")] Sample.half in
  let st := {| dailyLog := [Sample.logged "toast" Sample.toast];
               calorieGoal := of_Z 1800 |} in
  handleRemoveMeal (lit "1")
    (fst (handleLogMeal Sample.parse_eggs w (lit "2 eggs") st no_trace)) = st.
Proof.
  intros w st.
  apply (remove_undoes_log Sample.parse_eggs w (lit "2 eggs") st no_trace
           Sample.eggs).
  - unfold analysed. split; [discriminate|]. split; [reflexivity|].
    split; eexists; reflexivity.
  - vm_compute. reflexivity.
Defined.

(** X11.  An index that [parseInt] cannot read removes the first meal:
    [splice(NaN, 1)] starts at 0.  On an empty log nothing happens. *)
Theorem unreadable_index_removes_first (index : jsstring) (st : state) :
  parseInt10 index = NaN ->
  dailyLog (handleRemoveMeal index st) = tl (dailyLog st).
Proof.
  intro H. cbn [handleRemoveMeal dailyLog]. rewrite H.
  rewrite splice_one by (apply actual_start_bounds; lia).
  cbn [actual_start]. rewrite Z.min_l by lia.
  destruct (dailyLog st) as [|m log]; reflexivity.
Qed.

(** The index "first" on a log of two meals. *)
Lemma unreadable_index_sample :
  dailyLog
    (handleRemoveMeal (lit "first")
       {| dailyLog := [Sample.logged "2 eggs" Sample.eggs;
                       Sample.logged "toast" Sample.toast];
          calorieGoal := of_Z 2000 |})
  = [Sample.logged "toast" Sample.toast].
Proof.
  apply (unreadable_index_removes_first (lit "first")
           {| dailyLog := [Sample.logged "2 eggs" Sample.eggs;
                           Sample.logged "toast" Sample.toast];
              calorieGoal := of_Z 2000 |}).
  reflexivity.
Defined.

(** * The progress bar *)

Lemma Qc_ltb_of_Z (a b : Z) :
  Qc_ltb (Q2Qc (inject_Z a)) (Q2Qc (inject_Z b)) = (a <? b).
Proof.
  destruct (Z.ltb_spec a b) as [L|L].
  - apply Qc_ltb_lt. unfold Qclt. cbn [this Q2Qc]. rewrite !Qred_correct.
    rewrite <- Zlt_Qlt. exact L.
  - apply Qc_ltb_ge. unfold Qcle. cbn [this Q2Qc]. rewrite !Qred_correct.
    rewrite <- Zle_Qle. exact L.
Qed.

Lemma Qc_is_zero_of_Z (z : Z) : z <> 0 -> Qc_is_zero (Q2Qc (inject_Z z)) = false.
Proof.
  intro N. apply Qc_is_zero_false. intro E.
  apply (f_equal this) in E. cbn [this Q2Qc] in E.
  rewrite !Qred_inject_Z in E. change 0%Q with (inject_Z 0) in E.
  rewrite Qred_inject_Z in E. inversion E. contradiction.
Qed.

(** The width in percent for finite calories [c] and a positive goal. *)
Lemma scaled_at_least (c : Qc) (z : Z) (k : Z) :
  0 < z ->
  (Q2Qc (inject_Z k) * Q2Qc (inject_Z z) <= c)%Qc ->
  (Q2Qc (inject_Z k) * Q2Qc (inject_Z 100)
   <= c / Q2Qc (inject_Z z) * Q2Qc (inject_Z 100))%Qc.
Proof.
  intros Z0 H. unfold Qcle, Qcdiv in *.
  cbn [this Q2Qc Qcmult Qcinv] in *. rewrite !Qred_correct in *.
  assert (0 < inject_Z z)%Q as P.
  { change 0%Q with (inject_Z 0). rewrite <- Zlt_Qlt. exact Z0. }
  assert (inject_Z k <= this c * / inject_Z z)%Q as R.
  { apply Qle_shift_div_l; assumption. }
  change (inject_Z 100) with (100 # 1)%Q.
  set (r := (this c * / inject_Z z)%Q) in *.
  lra.
Qed.

Lemma progress_of_bounds (t : totals) (z : Z) :
  0 < z ->
  calories t <> NaN ->
  let p := progress_of t (of_Z z) in
  is_NaN (percent p) = false
  /\ gt (percent p) (of_Z 100) = false
  /\ (gt (of_Z z) (calories t) = false -> percent p = of_Z 100)
  /\ (gt (of_Z 0) (calories t) = false -> gt (of_Z 0) (percent p) = false).
Proof.
  intros Z0 N p. unfold p, progress_of. cbn [percent].
  assert (gt (of_Z z) (of_Z 0) = true) as ->.
  { unfold of_Z. cbn [gt]. rewrite Qc_ltb_of_Z. apply Z.ltb_lt, Z0. }
  assert (Qc_ltb (Q2Qc (inject_Z z)) (Q2Qc 0) = false) as L.
  { change 0%Q with (inject_Z 0). rewrite Qc_ltb_of_Z. apply Z.ltb_ge. lia. }
  assert (Qc_is_zero (Q2Qc (inject_Z z)) = false) as NZ
    by (apply Qc_is_zero_of_Z; lia).
  destruct (calories t) as [| |c|]; [congruence| | |].
  - unfold of_Z. cbn [div sign]. rewrite L. repeat split; discriminate.
  - unfold of_Z. cbn [div]. rewrite NZ. cbn [mul min gt].
    destruct (Qc_ltb (Q2Qc (inject_Z 100)) (c / Q2Qc (inject_Z z) * Q2Qc (inject_Z 100)))
      eqn:E.
    + split; [reflexivity|]. split; [apply Qc_ltb_ge, Qcle_refl|].
      split; [reflexivity|]. intros _. reflexivity.
    + split; [reflexivity|]. split; [exact E|]. split.
      * intro G. apply Qc_ltb_ge in G, E. f_equal. apply Qcle_antisym; [exact E|].
        pose proof (scaled_at_least c z 1 Z0) as S.
        assert (Q2Qc (inject_Z 1) * Q2Qc (inject_Z z) = Q2Qc (inject_Z z))%Qc as E1
          by (change (Q2Qc (inject_Z 1)) with 1%Qc; ring).
        assert (Q2Qc (inject_Z 1) * Q2Qc (inject_Z 100) = Q2Qc (inject_Z 100))%Qc as E2
          by (change (Q2Qc (inject_Z 1)) with 1%Qc; ring).
        rewrite E1, E2 in S. apply S, G.
      * intro G. apply Qc_ltb_ge in G. apply Qc_ltb_ge.
        pose proof (scaled_at_least c z 0 Z0) as S.
        assert (Q2Qc (inject_Z 0) * Q2Qc (inject_Z z) = Q2Qc 0)%Qc as E1
          by (change (Q2Qc (inject_Z 0)) with 0%Qc; ring).
        assert (Q2Qc (inject_Z 0) * Q2Qc (inject_Z 100) = Q2Qc 0)%Qc as E2
          by (change (Q2Qc (inject_Z 0)) with 0%Qc; ring).
        rewrite E1, E2 in S. apply S, G.
  - unfold of_Z. cbn [div sign]. rewrite L. repeat split.
Qed.

(** X12.  The progress bar stays within its track.  For a positive goal
    and totals that could be computed, the width is a number, never more
    than 100 percent; it is exactly 100 percent as soon as the calories
    reach the goal, so a bar marked as over the goal is always full; and it
    is not negative when the calories are not negative. *)
Theorem progress_bar_bounds (st : state) (tot : totals) (z : Z) :
  computeTotals st = Returned tot ->
  calorieGoal st = of_Z z ->
  0 < z ->
  calories tot <> NaN ->
  exists p,
    computeProgress st = Returned p
    /\ is_NaN (percent p) = false
    /\ gt (percent p) (of_Z 100) = false
    /\ (gt (of_Z z) (calories tot) = false -> percent p = of_Z 100)
    /\ (overGoal p = true -> percent p = of_Z 100)
    /\ (gt (of_Z 0) (calories tot) = false -> gt (of_Z 0) (percent p) = false).
Proof.
  intros E G Z0 N. unfold computeProgress. rewrite E, G.
  eexists. split; [reflexivity|].
  destruct (progress_of_bounds tot z Z0 N) as (B1 & B2 & B3 & B4).
  split; [exact B1|]. split; [exact B2|]. split; [exact B3|]. split; [|exact B4].
  intro O. apply B3. cbn [overGoal progress_of] in O. apply gt_asym, O.
Qed.

(** A goal of 2000 with 140 calories logged. *)
Lemma progress_bar_sample :
  exists p,
    computeProgress
      {| dailyLog := [Sample.logged "2 eggs" Sample.eggs];
         calorieGoal := of_Z 2000 |} = Returned p
    /\ gt (percent p) (of_Z 100) = false
    /\ gt (of_Z 0) (percent p) = false.
Proof.
  destruct
    (progress_bar_bounds
       {| dailyLog := [Sample.logged "2 eggs" Sample.eggs];
          calorieGoal := of_Z 2000 |}
       _ 2000 eq_refl eq_refl ltac:(lia) ltac:(discriminate))
    as (p & E & _ & B & _ & _ & P).
  exists p. split; [exact E|]. split; [exact B|]. apply P. reflexivity.
Defined.

(** X13.  An empty log shows an empty bar.  After a confirmed clear, for
    every integer goal, the width is 0 percent; the bar is marked as over
    the goal exactly when the goal is negative, since 0 calories exceed a
    negative goal. *)
Theorem cleared_log_shows_empty_bar (st : state) (z : Z) :
  calorieGoal st = of_Z z ->
  computeProgress (handleClearLog true st) =
  Returned {| percent := of_Z 0; overGoal := z <? 0 |}.
Proof.
  intro G. unfold computeProgress. cbn [handleClearLog computeTotals dailyLog reduce].
  cbn [calorieGoal]. rewrite G. unfold progress_of, no_totals. cbn [calories].
  f_equal. f_equal.
  - unfold of_Z at 1 2. cbn [gt]. rewrite Qc_ltb_of_Z.
    destruct (Z.ltb_spec 0 z) as [P|P]; [|reflexivity].
    unfold of_Z. cbn [div]. rewrite Qc_is_zero_of_Z by lia. cbn [mul].
    assert (Q2Qc (inject_Z 0) / Q2Qc (inject_Z z) * Q2Qc (inject_Z 100)
            = Q2Qc (inject_Z 0))%Qc as ->.
    { change (Q2Qc (inject_Z 0)) with 0%Qc. unfold Qcdiv. ring. }
    reflexivity.
  - unfold of_Z. cbn [gt]. apply Qc_ltb_of_Z.
Qed.

(** A goal of -5, as the input "-5" sets it. *)
Lemma cleared_log_sample :
  computeProgress
    (handleClearLog true
       (handleGoalChange (lit "-5")
          {| dailyLog := [Sample.logged "2 eggs" Sample.eggs];
             calorieGoal := of_Z 2000 |}))
  = Returned {| percent := of_Z 0; overGoal := true |}.
Proof.
  apply (cleared_log_shows_empty_bar
           (handleGoalChange (lit "-5")
              {| dailyLog := [Sample.logged "2 eggs" Sample.eggs];
                 calorieGoal := of_Z 2000 |})
           (-5)).
  reflexivity.
Defined.

(** * What the user sees of a submission *)

(** X14.  The page tells the user what happened to a submission.  The
    state and the trace are those of [handleLogMeal] on the text of the
    input.  The error message is hidden afterwards exactly when a meal was
    appended and the page was rendered without an error, and then the
    input is emptied.  Otherwise the message is visible, the input keeps
    its text for another try, and the message names the cause: an empty
    description, an analysis without both fields, or an error thrown by
    the analysis or by the rendering; in the last case the meal is in the
    log all the same.  After any submission with a description the button
    is enabled again, carries its label, and the loader is hidden; an empty
    description does not touch the button. *)
Theorem submission_feedback
  (JSON_parse : jsstring -> option (option nutrition)) (w : world)
  (renders : state -> bool) (st : state) (p : page) (t : trace) :
  let '(st', p', t') := handleLogMeal_page JSON_parse w renders st p t in
  let description := trim (mealInput_value p) in
  (st', t') = handleLogMeal JSON_parse w (mealInput_value p) st t
  /\ (errorMessage_hidden p' = true <->
      dailyLog st' <> dailyLog st /\ renders st' = true)
  /\ (errorMessage_hidden p' = true -> mealInput_value p' = [])
  /\ (errorMessage_hidden p' = false ->
      mealInput_value p' = mealInput_value p
      /\ errorMessage_text p' =
         if negb (Str.truthy description) then please_enter
         else match fst (getNutritionalInfo JSON_parse w description t) with
              | Returned a =>
                  match accepted a with
                  | Some _ => error_occurred
                  | None => could_not_analyze
                  end
              | Threw _ => error_occurred
              end)
  /\ (description <> [] ->
      logMealBtn_disabled p' = false
      /\ logMealBtn_text p' = lit "Analyze & Log Meal"
      /\ loader_hidden p' = true)
  /\ (description = [] ->
      logMealBtn_disabled p' = logMealBtn_disabled p
      /\ logMealBtn_text p' = logMealBtn_text p
      /\ loader_hidden p' = loader_hidden p).
Proof.
  assert (forall l (m : meal), l ++ [m] <> l) as Grow.
  { intros l m E. apply (f_equal (@List.length _)) in E.
    rewrite length_app in E. simpl in E. lia. }
  unfold handleLogMeal_page, handleLogMeal.
  destruct (trim (mealInput_value p)) as [|c s] eqn:T; cbn [Str.truthy negb].
  - split; [reflexivity|].
    split; [split; [discriminate|intros [N _]; congruence]|].
    split; [discriminate|]. split; [intros _; split; reflexivity|].
    split; [congruence|]. intros _. repeat split.
  - destruct (getNutritionalInfo JSON_parse w (c :: s) t) as [[a|e] t'] eqn:G;
      cbn [fst]; [destruct (accepted a) as [v|] eqn:A|].
    + cbv zeta.
      destruct (renders _) eqn:Rn.
      * split; [reflexivity|]. cbn [dailyLog].
        split; [split; [intros _; split; [apply Grow|exact Rn]|reflexivity]|].
        split; [reflexivity|]. split; [discriminate|].
        split; [intros _; repeat split|discriminate].
      * split; [reflexivity|]. cbn [dailyLog].
        split; [split; [discriminate|intros [_ N]; congruence]|].
        split; [discriminate|]. split; [intros _; split; reflexivity|].
        split; [intros _; repeat split|discriminate].
    + split; [reflexivity|].
      split; [split; [discriminate|intros [N _]; congruence]|].
      split; [discriminate|]. split; [intros _; split; reflexivity|].
      split; [intros _; repeat split|discriminate].
    + split; [reflexivity|].
      split; [split; [discriminate|intros [N _]; congruence]|].
      split; [discriminate|]. split; [intros _; split; reflexivity|].
      split; [intros _; repeat split|discriminate].
Qed.

(** A submission whose analysis is accepted but whose rendering throws:
    the meal is logged, the message says that an error occurred, the text
    stays in the input, the button is enabled. *)
Lemma submission_feedback_sample :
  let w := Sample.answering [Sample.carrying (lit "{}")] Sample.half in
  let p := {| mealInput_value := lit " 2 eggs ";
              errorMessage_text := [];
              errorMessage_hidden := true;
              logMealBtn_disabled := false;
              logMealBtn_text := lit "Analyze & Log Meal";
              loader_hidden := true |} in
  let '(st', p', t') :=
    handleLogMeal_page Sample.parse_eggs w (fun _ => false) initial p no_trace in
  dailyLog st' = [Sample.logged "2 eggs" Sample.eggs]
  /\ errorMessage_hidden p' = false
  /\ errorMessage_text p' = error_occurred
  /\ mealInput_value p' = lit " 2 eggs "
  /\ logMealBtn_disabled p' = false.
Proof.
  intros w p.
  pose proof (submission_feedback Sample.parse_eggs w (fun _ => false)
                initial p no_trace) as H.
  destruct (handleLogMeal_page Sample.parse_eggs w (fun _ => false)
              initial p no_trace) as [[st' p'] t'].
  destruct H as (E & Hid & _ & K & B & _).
  assert (errorMessage_hidden p' = false) as Hf.
  { destruct (errorMessage_hidden p'); [|reflexivity].
    destruct (proj1 Hid eq_refl) as [_ F]. discriminate F. }
  destruct (K Hf) as [I M]. destruct (B ltac:(discriminate)) as [D _].
  split; [inversion E; reflexivity|].
  repeat split; assumption.
Defined.

(** * The dashboard in every reachable state *)

(** X15.  The dashboard never fails and the bar never overflows.  In
    every state the page reaches from its initial state, whatever the
    events, the analyses and the goal, [updateDashboard] computes its
    totals without throwing, and the width of the progress bar is never
    more than 100 percent. *)
Theorem dashboard_never_overflows
  (JSON_parse : jsstring -> option (option nutrition)) (w : world)
  (evs : list event) (t : trace) :
  let st := fst (run JSON_parse w evs initial t) in
  exists p,
    computeProgress st = Returned p
    /\ gt (percent p) (of_Z 100) = false.
Proof.
  intro st.
  assert (computeTotals st = Returned (fieldwise_sum (dailyLog st))) as E.
  { apply computeTotals_summarised. apply run_summarised. constructor. }
  assert (sound st) as [_ [[z G]|[G|G]]].
  { apply run_sound. split; [constructor|]. left. exists 2000. reflexivity. }
  - unfold computeProgress. rewrite E, G. eexists. split; [reflexivity|].
    set (tot := fieldwise_sum (dailyLog st)).
    destruct (Z.ltb_spec 0 z) as [P|P].
    + destruct (calories tot) as [| |c|] eqn:C.
      * unfold progress_of. cbn [percent]. rewrite C.
        destruct (gt (of_Z z) (of_Z 0)); reflexivity.
      * apply (progress_of_bounds tot z P). rewrite C. discriminate.
      * apply (progress_of_bounds tot z P). rewrite C. discriminate.
      * apply (progress_of_bounds tot z P). rewrite C. discriminate.
    + unfold progress_of. cbn [percent].
      assert (gt (of_Z z) (of_Z 0) = false) as ->; [|reflexivity].
      unfold of_Z. cbn [gt]. rewrite Qc_ltb_of_Z. apply Z.ltb_ge, P.
  - unfold computeProgress. rewrite E, G. eexists. split; [reflexivity|].
    unfold progress_of. cbn [percent].
    destruct (calories (fieldwise_sum (dailyLog st))); reflexivity.
  - unfold computeProgress. rewrite E, G. eexists. split; [reflexivity|].
    reflexivity.
Qed.

(** X16.  Typing a whole number sets the goal to it: for every natural
    number up to [2^53], its decimal numeral as input makes that number the
    goal, and the log is left as it was. *)
Theorem whole_number_sets_the_goal (n : N) (st : state) :
  Z.of_N n <= 2 ^ 53 ->
  calorieGoal (handleGoalChange (decimal n) st) = of_Z (Z.of_N n)
  /\ dailyLog (handleGoalChange (decimal n) st) = dailyLog st.
Proof.
  intro B. split; [|reflexivity].
  apply handleGoalChange_integer, parseInt10_decimal, B.
Qed.

(** The goal 1800. *)
Lemma whole_number_sample :
  calorieGoal (handleGoalChange (lit "1800") initial) = of_Z 1800.
Proof.
  destruct (whole_number_sets_the_goal 1800 initial
              ltac:(vm_compute; discriminate)) as [H _].
  exact H.
Defined.
